(** * onnxdump: introspection and custom-metadata engine

    A shallow embedding of the parts of [onnx_metadata.py], [onnx_dump.py],
    [onnx_dump_simple.py] and [onnx_viewer_gui.py] that compute something:
    the metadata record parser and the merge/replace transform, the operator
    histogram, the parameter count and its magnitude formatting, and the
    structure tree of the viewer.

    Python values are modelled as follows.
    - [str] is [string] (the UTF-8 bytes of the text; tab, line feed and
      carriage return are single bytes, and byte-wise order on UTF-8 is
      code-point order, which is how Python compares strings).
    - [int] is [Z]; lengths and indices are [nat].
    - a [dict], a [Counter] and a [defaultdict] keep insertion order, and an
      assignment to an existing key keeps that key's position: they are
      association lists updated in place.
    - protobuf messages are records; a repeated field is a [list].
    - the message object returned by [onnx.load] lives in a heap
      [gmap loc ModelProto] and is updated in place; the file system is one
      finite map from paths to what the files hold, so that writing to a
      path replaces whatever was there. *)

From Stdlib Require Import ZArith List Lia Bool Sorted Permutation.
From Stdlib Require Import Strings.String Strings.Ascii DecimalString.
From Stdlib Require Import DecimalPos DecimalZ.
From stdpp Require Import base gmap strings.
Import ListNotations.

(* ================================================================= *)
(** ** Python strings *)

Definition TAB : ascii := "009"%char.
Definition LF : ascii := "010"%char.
Definition CR : ascii := "013"%char.

(** [c in s] for a one-character [c]. *)
Fixpoint str_contains (c : ascii) (s : string) : bool :=
  match s with
  | EmptyString => false
  | String a s' => Ascii.eqb a c || str_contains c s'
  end.

(** [s.rstrip(c)]: every trailing occurrence of [c] is removed. *)
Fixpoint rstrip (c : ascii) (s : string) : string :=
  match s with
  | EmptyString => EmptyString
  | String a s' =>
      match rstrip c s' with
      | EmptyString => if Ascii.eqb a c then EmptyString else String a EmptyString
      | r => String a r
      end
  end.

(** [s.split(sep, 1)]: one part when [sep] does not occur, otherwise the
    text before the first [sep] and the text after it. *)
Fixpoint split1 (sep : ascii) (s : string) : list string :=
  match s with
  | EmptyString => [EmptyString]
  | String a s' =>
      if Ascii.eqb a sep then [EmptyString; s']
      else match split1 sep s' with
           | p :: rest => String a p :: rest
           | [] => [String a EmptyString]
           end
  end.

(** [sep.join(parts)]. *)
Fixpoint join (sep : string) (parts : list string) : string :=
  match parts with
  | [] => EmptyString
  | [p] => p
  | p :: rest => p +:+ sep +:+ join sep rest
  end.

(** [str(n)] for an integer. *)
Definition str_of_Z (n : Z) : string := NilZero.string_of_int (Z.to_int n).

(** A text file opened with [open(path, 'r', encoding='utf-8')] is read in
    universal-newlines mode: [\r\n] and a lone [\r] both arrive as [\n]. *)
Fixpoint universal_newlines (s : string) : string :=
  match s with
  | EmptyString => EmptyString
  | String a s' =>
      if Ascii.eqb a CR then
        match s' with
        | String b s'' =>
            if Ascii.eqb b LF then String LF (universal_newlines s'')
            else String LF (universal_newlines s')
        | EmptyString => String LF EmptyString
        end
      else String a (universal_newlines s')
  end.

(** [for line in f]: the lines of the text, each with its terminating [\n]
    (the last one has none when the text does not end in [\n]). *)
Fixpoint iter_lines (s : string) : list string :=
  match s with
  | EmptyString => []
  | String a s' =>
      if Ascii.eqb a LF then String LF EmptyString :: iter_lines s'
      else match iter_lines s' with
           | [] => [String a EmptyString]
           | l :: ls => String a l :: ls
           end
  end.

(* ================================================================= *)
(** ** Python dictionaries with string keys (insertion ordered) *)

Abbreviation pydict V := (list (string * V)).

(** [d[k] = v]: an existing key keeps its position and takes the new value,
    a new key goes to the end. *)
Fixpoint dict_setitem {V} (k : string) (v : V) (d : pydict V) : pydict V :=
  match d with
  | [] => [(k, v)]
  | (k', v') :: d' =>
      if String.eqb k' k then (k', v) :: d'
      else (k', v') :: dict_setitem k v d'
  end.

(** [k in d]. *)
Definition dict_contains {V} (k : string) (d : pydict V) : bool :=
  existsb (fun e => String.eqb (fst e) k) d.

(** [d.get(k)]. *)
Fixpoint dict_get {V} (k : string) (d : pydict V) : option V :=
  match d with
  | [] => None
  | (k', v') :: d' => if String.eqb k' k then Some v' else dict_get k d'
  end.

Definition dict_keys {V} (d : pydict V) : list string := map fst d.

(* ================================================================= *)
(** ** The ONNX messages the tools read *)

Record StringStringEntryProto := MkProp { key : string; value : string }.

Record OperatorSetIdProto := { domain : string; version : Z }.

(** One entry of [tensor.type.tensor_type.shape.dim]. *)
Record Dimension := { dim_value : Z; dim_param : string }.

Record ValueInfoProto := {
  vi_name : string;
  elem_type : Z;
  shape_dim : list Dimension
}.

Record TensorProto := {
  tensor_name : string;
  dims : list Z;
  data_type : Z
}.

Record NodeProto := {
  node_name : string;
  op_type : string;
  node_input : list string;
  node_output : list string
}.

Record GraphProto := {
  graph_name : string;
  node : list NodeProto;
  input : list ValueInfoProto;
  output : list ValueInfoProto;
  initializer : list TensorProto
}.

Record ModelProto := {
  ir_version : Z;
  producer_name : string;
  producer_version : string;
  opset_import : list OperatorSetIdProto;
  metadata_props : list StringStringEntryProto;
  graph : GraphProto
}.

(** Assignment to the [metadata_props] field of a message. *)
Definition with_metadata_props (m : ModelProto)
    (ps : list StringStringEntryProto) : ModelProto :=
  {| ir_version := ir_version m;
     producer_name := producer_name m;
     producer_version := producer_version m;
     opset_import := opset_import m;
     metadata_props := ps;
     graph := graph m |}.

(* ================================================================= *)
(** ** onnx_metadata.py: reading the metadata file *)

(** The state of the reading loop of [import_metadata]: the dictionary
    built so far and the lines reported on stderr as skipped. *)
Record ReadState := {
  metadata_dict : pydict string;
  skipped : list string
}.

(** The body of [for line in f]. *)
Definition read_line (st : ReadState) (raw : string) : ReadState :=
  let line := rstrip LF raw in
  match line with
  | EmptyString => st
  | _ =>
      match split1 TAB line with
      | [k; v] =>
          {| metadata_dict := dict_setitem k v (metadata_dict st);
             skipped := skipped st |}
      | _ =>
          {| metadata_dict := metadata_dict st;
             skipped := skipped st ++ [line] |}
      end
  end.

Definition read_lines (lines : list string) : ReadState :=
  fold_left read_line lines {| metadata_dict := []; skipped := [] |}.

(** The dictionary read from the given lines. *)
Definition parse_metadata (lines : list string) : pydict string :=
  metadata_dict (read_lines lines).

(* ================================================================= *)
(** ** The onnx package *)

(** Whether the keys are pairwise distinct. *)
Fixpoint distinct (ks : list string) : bool :=
  match ks with
  | [] => true
  | k :: rest => negb (existsb (String.eqb k) rest) && distinct rest
  end.

(** What the tools take from the onnx package without fixing it themselves:
    the rules of [onnx.checker.check_model] other than the two below (on the
    operator sets, the graph, its nodes and tensors), what the protobuf
    parser makes of the bytes of a text file (as a rule nothing), and the
    text that the bytes of a serialized model decode to when they happen to
    be UTF-8 (as a rule none). *)
Class Onnx := {
  other_checks : ModelProto -> bool;
  text_as_model : string -> option ModelProto;
  model_as_text : ModelProto -> option string
}.

(** The verdict of [onnx.checker.check_model] on a parsed model. The checker
    refuses a model without IR version and a model in which two entries of
    [metadata_props] have the same key. *)
Definition check_model {L : Onnx} (doc : ModelProto) : bool :=
  negb (ir_version doc =? 0)%Z
  && distinct (map key (metadata_props doc))
  && other_checks doc.

(* ================================================================= *)
(** ** The process state: files and message objects *)

Abbreviation loc := nat.

(** What a path holds: a text with its decoded content, a serialized model
    with the message it holds, or anything else (bytes that are neither,
    a directory, a file that may not be read). *)
Inductive File :=
| TextFile (content : string)
| ModelFile (doc : ModelProto)
| OtherFile.

(** [files] is the file system: what the file named by each path holds, two
    paths naming two files. [unwritable] are the paths that cannot be opened
    for writing, [heap] the message objects of the running process. *)
Record State := {
  files : gmap string File;
  unwritable : gset string;
  heap : gmap loc ModelProto
}.

Definition with_heap (st : State) (h : gmap loc ModelProto) : State :=
  {| files := files st; unwritable := unwritable st; heap := h |}.

(** The file at [path] is created or overwritten. *)
Definition with_file (st : State) (path : string) (f : File) : State :=
  {| files := <[path := f]> (files st);
     unwritable := unwritable st;
     heap := heap st |}.

Definition writable (path : string) (st : State) : bool :=
  bool_decide (path ∉ unwritable st).

(** [open(path, 'r', encoding='utf-8')] and the reading of the file; [None]
    is FileNotFoundError, UnicodeDecodeError or another OSError. *)
Definition read_text {L : Onnx} (path : string) (st : State) : option string :=
  match files st !! path with
  | Some (TextFile content) => Some content
  | Some (ModelFile doc) => model_as_text doc
  | Some OtherFile => None
  | None => None
  end.

(** The message that the file at [path] parses to; [None] is an exception. *)
Definition read_model {L : Onnx} (path : string) (st : State) : option ModelProto :=
  match files st !! path with
  | Some (ModelFile doc) => Some doc
  | Some (TextFile content) => text_as_model content
  | Some OtherFile => None
  | None => None
  end.

(** [onnx.checker.check_model(path)]; [false] is an exception. *)
Definition checker_check_model {L : Onnx} (path : string) (st : State) : bool :=
  match read_model path st with
  | Some doc => check_model doc
  | None => false
  end.

(** [model = onnx.load(path)]: a new message object. *)
Definition onnx_load {L : Onnx} (path : string) (st : State)
    : option (loc * State) :=
  match read_model path st with
  | None => None
  | Some doc =>
      let model := fresh (dom (heap st)) in
      Some (model, with_heap st (<[model := doc]> (heap st)))
  end.

(** [onnx.save(model, path)]: the file at [path], whatever it held, now
    holds the message; [None] is an exception, and no file has changed. *)
Definition onnx_save (model : loc) (path : string) (st : State)
    : option State :=
  if writable path st then
    match heap st !! model with
    | Some doc => Some (with_file st path (ModelFile doc))
    | None => None
    end
  else None.

(** [with open(path, 'w', encoding='utf-8') as f], after which [content] has
    been written: the file at [path], whatever it held, is now this text. *)
Definition write_text (path content : string) (st : State) : option State :=
  if writable path st then Some (with_file st path (TextFile content))
  else None.

(** [model.metadata_props], read. *)
Definition props_of (model : loc) (h : gmap loc ModelProto)
    : list StringStringEntryProto :=
  match h !! model with
  | Some m => metadata_props m
  | None => []
  end.

(** An in-place change of the repeated field of the object [model]. *)
Definition modify_props
    (f : list StringStringEntryProto -> list StringStringEntryProto)
    (model : loc) (h : gmap loc ModelProto) : gmap loc ModelProto :=
  alter (fun m => with_metadata_props m (f (metadata_props m))) model h.

(** [del l[i]] on a list, for an index in range. *)
Fixpoint del_index {A} (i : nat) (l : list A) : list A :=
  match l with
  | [] => []
  | a :: l' =>
      match i with
      | O => l'
      | S i' => a :: del_index i' l'
      end
  end.

(** [del model.metadata_props[:]]. *)
Definition clear_props (model : loc) (h : gmap loc ModelProto) :=
  modify_props (fun _ => []) model h.

(** [del model.metadata_props[i]]; [None] is Python's IndexError. *)
Definition del_prop (model : loc) (i : nat) (h : gmap loc ModelProto)
    : option (gmap loc ModelProto) :=
  if (i <? length (props_of model h))%nat
  then Some (modify_props (del_index i) model h)
  else None.

(** [prop = model.metadata_props.add(); prop.key = k; prop.value = v]. *)
Definition add_prop (model : loc) (k v : string) (h : gmap loc ModelProto) :=
  modify_props (fun ps => ps ++ [MkProp k v]) model h.

(* ================================================================= *)
(** ** onnx_metadata.py: the merge and replace transform *)

Inductive Mode := Merge | Replace.

(** [enumerate(l)], counting from [i]. *)
Fixpoint enumerate_from {A} (i : nat) (l : list A) : list (nat * A) :=
  match l with
  | [] => []
  | a :: l' => (i, a) :: enumerate_from (S i) l'
  end.

(** The first loop of merge mode: the indices of the entries whose key is
    in the dictionary, in increasing order. *)
Definition collect_keys_to_remove (d : pydict string)
    (props : list StringStringEntryProto) : list nat :=
  map fst (List.filter (fun ip => dict_contains (key (snd ip)) d)
             (enumerate_from 0 props)).

(** [for i in idxs: del model.metadata_props[i]]. *)
Fixpoint del_props (model : loc) (idxs : list nat) (h : gmap loc ModelProto)
    : option (gmap loc ModelProto) :=
  match idxs with
  | [] => Some h
  | i :: rest =>
      match del_prop model i h with
      | Some h' => del_props model rest h'
      | None => None
      end
  end.

(** [for key, value in metadata_dict.items(): ... add ...]. *)
Fixpoint add_props (model : loc) (items : pydict string)
    (h : gmap loc ModelProto) : gmap loc ModelProto :=
  match items with
  | [] => h
  | (k, v) :: rest => add_props model rest (add_prop model k v h)
  end.

(** Lines 90-108 of [import_metadata]: the object [model] is changed in
    place; the result is the list [keys_to_remove] (empty in replace mode,
    where the name is never bound) and the new heap. *)
Definition update_metadata (mode : Mode) (d : pydict string) (model : loc)
    (h : gmap loc ModelProto) : option (list nat * gmap loc ModelProto) :=
  match mode with
  | Replace =>
      let h1 := clear_props model h in
      Some ([], add_props model d h1)
  | Merge =>
      let keys_to_remove := collect_keys_to_remove d (props_of model h) in
      match del_props model (rev keys_to_remove) h with
      | None => None
      | Some h1 => Some (keys_to_remove, add_props model d h1)
      end
  end.

(** What [import_metadata] prints on success. *)
Inductive Report :=
| ReplaceReport (imported original : Z)
| MergeReport (imported updated added retained : Z).

(** Lines 113-120. *)
Definition make_report (mode : Mode) (d : pydict string)
    (original_count : nat) (keys_to_remove : list nat) (new_count : nat)
    : Report :=
  match mode with
  | Replace => ReplaceReport (Z.of_nat (length d)) (Z.of_nat original_count)
  | Merge =>
      let added_count :=
        (Z.of_nat new_count
         - (Z.of_nat original_count - Z.of_nat (length keys_to_remove)))%Z in
      MergeReport (Z.of_nat (length d))
                  (Z.of_nat (length keys_to_remove))
                  added_count
                  (Z.of_nat new_count - Z.of_nat (length d))%Z
  end.

(** [import_metadata(model_path, metadata_file, output_path, mode)]: the
    exit code, the report printed on success, and the state afterwards.
    The command line admits the modes merge and replace only. Every
    exception ends the call with code 1 (lines 76-78 and 124-126). *)
Definition import_metadata {L : Onnx}
    (model_path metadata_file output_path : string)
    (mode : Mode) (st : State) : Z * option Report * State :=
  match read_text metadata_file st with
  | None => (1%Z, None, st)
  | Some content =>
      let d := parse_metadata (iter_lines (universal_newlines content)) in
      if checker_check_model model_path st then
        match onnx_load model_path st with
        | None => (1%Z, None, st)
        | Some (model, st1) =>
            let original_count := length (props_of model (heap st1)) in
            match update_metadata mode d model (heap st1) with
            | None => (1%Z, None, st1)   (* IndexError; never raised *)
            | Some (keys_to_remove, h2) =>
                match onnx_save model output_path (with_heap st1 h2) with
                | None => (1%Z, None, with_heap st1 h2)
                | Some st2 =>
                    let new_count := length (props_of model h2) in
                    (0%Z,
                     Some (make_report mode d original_count keys_to_remove
                             new_count),
                     st2)
                end
            end
        end
      else (1%Z, None, st)
  end.

(** A small model that carries the given metadata list: IR version 8, the
    default operator set, a graph named [main] without nodes. *)
Definition blank_model (props : list StringStringEntryProto) : ModelProto :=
  {| ir_version := 8; producer_name := ""; producer_version := "";
     opset_import := [{| domain := ""; version := 17 |}];
     metadata_props := props;
     graph := {| graph_name := "main"; node := []; input := []; output := [];
                 initializer := [] |} |}.

(** The package with no further rule in the checker, and in which no file
    is a text and a model at once. The examples are run with it. *)
Definition plain_onnx : Onnx :=
  {| other_checks := fun _ => true;
     text_as_model := fun _ => None;
     model_as_text := fun _ => None |}.

(* ================================================================= *)
(** ** onnx_metadata.py: export *)

(** [f.write(s)] on a file opened for writing (POSIX: no translation). *)
Definition file_write (content s : string) : string := content +:+ s.

(** The record written for one entry: [f"{prop.key}\t{prop.value}\n"]. *)
Definition record_line (p : StringStringEntryProto) : string :=
  key p +:+ String TAB (value p +:+ String LF EmptyString).

(** The text that [export_metadata] writes for a metadata list. *)
Definition export_text (props : list StringStringEntryProto) : string :=
  match props with
  | [] => file_write "" ""
  | _ => fold_left (fun content p => file_write content (record_line p)) props ""
  end.

(** [export_metadata(model_path, output_file)]: the exit code and the state
    afterwards. *)
Definition export_metadata {L : Onnx} (model_path output_file : string)
    (st : State) : Z * State :=
  if checker_check_model model_path st then
    match onnx_load model_path st with
    | None => (1%Z, st)
    | Some (model, st1) =>
        match write_text output_file
                (export_text (props_of model (heap st1))) st1 with
        | None => (1%Z, st1)
        | Some st2 => (0%Z, st2)
        end
    end
  else (1%Z, st).

(* ================================================================= *)
(** ** Reference definitions for the statements about the transform *)

(** The entry that the adding loop writes for one item of the dictionary. *)
Definition entry_of (kv : string * string) : StringStringEntryProto :=
  MkProp (fst kv) (snd kv).

(** An entry of the document whose key the dictionary does not mention. *)
Definition untouched (d : pydict string) (p : StringStringEntryProto) : bool :=
  negb (dict_contains (key p) d).

(** The list the specification describes for each mode. *)
Definition expected_props (mode : Mode) (d : pydict string)
    (props : list StringStringEntryProto) : list StringStringEntryProto :=
  match mode with
  | Replace => map entry_of d
  | Merge => List.filter (untouched d) props ++ map entry_of d
  end.

(** Deleting the listed indices one after the other from a plain list. *)
Fixpoint del_indices {A} (idxs : list nat) (l : list A) : option (list A) :=
  match idxs with
  | [] => Some l
  | i :: rest =>
      if (i <? length l)%nat then del_indices rest (del_index i l) else None
  end.

(** The end-to-end scenario of the specification: a model whose metadata
    is [(x,1),(y,2)] and a metadata file with the records [y<TAB>9] and
    [z<TAB>5]. *)
Definition scenario_model : ModelProto :=
  blank_model [MkProp "x" "1"; MkProp "y" "2"].

Definition scenario_text : string :=
  "y" +:+ String TAB "9" +:+ String LF ("z" +:+ String TAB "5" +:+ String LF "").

Definition scenario_state : State :=
  {| files := {["model.onnx" := ModelFile scenario_model;
               "meta.txt" := TextFile scenario_text]};
     unwritable := ∅;
     heap := ∅ |}.

(* ================================================================= *)
(** ** Reference definitions for the statements about parsing *)

(** The text before the first occurrence of [c] (the whole text when [c]
    does not occur), and the text after it (none when it does not occur). *)
Fixpoint str_before (c : ascii) (s : string) : string :=
  match s with
  | EmptyString => EmptyString
  | String a s' => if Ascii.eqb a c then EmptyString else String a (str_before c s')
  end.

Fixpoint str_after (c : ascii) (s : string) : option string :=
  match s with
  | EmptyString => None
  | String a s' => if Ascii.eqb a c then Some s' else str_after c s'
  end.

Definition is_empty (s : string) : bool :=
  match s with
  | EmptyString => true
  | _ => false
  end.

(** The record a raw line stands for: the line without its line feeds, when
    it is not empty and has a tab, cut at its first tab. *)
Definition record_of (raw : string) : option (string * string) :=
  let line := rstrip LF raw in
  if is_empty line then None
  else match str_after TAB line with
       | Some v => Some (str_before TAB line, v)
       | None => None
       end.

Definition records_of (lines : list string) : list (string * string) :=
  flat_map (fun raw => match record_of raw with Some r => [r] | None => [] end)
           lines.

(** The assignment [metadata_dict[key] = value] for one record. *)
Definition set_record (d : pydict string) (kv : string * string) : pydict string :=
  dict_setitem (fst kv) (snd kv) d.

(** The malformed lines: not empty, and without a tab. *)
Definition malformed_of (lines : list string) : list string :=
  List.filter (fun line => negb (is_empty line) && negb (str_contains TAB line))
              (map (rstrip LF) lines).

(** The distinct keys of a sequence, each at its first occurrence. *)
Fixpoint first_occurrences (ks : list string) : list string :=
  match ks with
  | [] => []
  | k :: rest =>
      k :: List.filter (fun k' => negb (String.eqb k' k)) (first_occurrences rest)
  end.

(** The value of the last record with key [k]. *)
Fixpoint last_value (k : string) (recs : list (string * string)) : option string :=
  match recs with
  | [] => None
  | (k', v) :: rest =>
      match last_value k rest with
      | Some x => Some x
      | None => if String.eqb k' k then Some v else None
      end
  end.

(* ================================================================= *)
(** ** Reference definitions for the round trip *)

(** An entry that the line format can carry: no tab in the key, and neither
    a line feed nor a carriage return in the key or in the value. *)
Definition exportable (p : StringStringEntryProto) : bool :=
  negb (str_contains TAB (key p))
  && negb (str_contains LF (key p)) && negb (str_contains CR (key p))
  && negb (str_contains LF (value p)) && negb (str_contains CR (value p)).

(** The condition of the claim: no tab and no line feed in the key, no line
    feed in the value. *)
Definition exportable_lf_only (p : StringStringEntryProto) : bool :=
  negb (str_contains TAB (key p))
  && negb (str_contains LF (key p))
  && negb (str_contains LF (value p)).

Definition concat_lines (lines : list string) : string :=
  fold_right String.append EmptyString lines.

(** A state with one model carrying [props] and one other model. *)
Definition roundtrip_state (props : list StringStringEntryProto) : State :=
  {| files :=
       {["source.onnx" := ModelFile (blank_model props);
         "target.onnx" := ModelFile (blank_model [MkProp "old" "0"])]};
     unwritable := ∅;
     heap := ∅ |}.

(* ================================================================= *)
(** ** Python's stable sort *)

(** [sorted] is stable, so its result is fixed by the order alone (see
    [stable_sort_unique] below); it is taken here as the insertion sort that
    puts an element after the elements that sort strictly before it and
    before all others. [before y x] says that [y] sorts strictly before [x]. *)
Fixpoint insert_stable {A} (before : A -> A -> bool) (x : A) (l : list A)
    : list A :=
  match l with
  | [] => [x]
  | y :: l' =>
      if before y x then y :: insert_stable before x l'
      else x :: y :: l'
  end.

Definition sort_stable {A} (before : A -> A -> bool) (l : list A) : list A :=
  fold_right (insert_stable before) [] l.

(** [a] may stand to the left of [b]: [b] does not sort strictly before. *)
Definition may_precede {A} (before : A -> A -> bool) (a b : A) : Prop :=
  before b a = false.

(** The elements with a given key. *)
Definition has_key {A} (key : A -> Z) (c : Z) (a : A) : bool := (key a =? c)%Z.

(** [sorted(l, key=key, reverse=reverse)] for an integer key. With
    [reverse=True] the order is descending and elements with equal keys
    still keep their original order. *)
Definition sorted_by_key {A} (key : A -> Z) (reverse : bool) (l : list A)
    : list A :=
  sort_stable (fun y x => if reverse then (key x <? key y)%Z
                          else (key y <? key x)%Z) l.

(** [sorted(l)] for strings. *)
Definition sorted_strings (l : list string) : list string :=
  sort_stable String.ltb l.

(* ================================================================= *)
(** ** The operator histogram *)

(** [c[k] = c.get(k, 0) + 1], the step of [Counter(iterable)] and of
    [op_count[k] += 1] on a [defaultdict(int)]. *)
Definition count_element (c : pydict Z) (k : string) : pydict Z :=
  dict_setitem k (match dict_get k c with Some n => n | None => 0 end + 1)%Z c.

Definition Counter (ks : list string) : pydict Z :=
  fold_left count_element ks [].

(** [Counter.most_common()]:
    [sorted(self.items(), key=itemgetter(1), reverse=True)]. *)
Definition most_common (c : pydict Z) : list (string * Z) :=
  sorted_by_key snd true c.

(** The rows of [show_operators_table] and of the operator list of
    [show_model_info]: operator type and count. *)
Definition op_histogram (g : GraphProto) : list (string * Z) :=
  most_common (Counter (map op_type (node g))).

(** The operator statistics of [update_overview] in the viewer:
    [sorted(op_count.items(), key=lambda x: -x[1])]. *)
Definition op_statistics (g : GraphProto) : list (string * Z) :=
  sorted_by_key (fun x => (- snd x)%Z) false (Counter (map op_type (node g))).

(** The number of occurrences of a key in a sequence. *)
Definition occurrences (k : string) (ks : list string) : Z :=
  Z.of_nat (length (List.filter (String.eqb k) ks)).

(** Descending by count. *)
Definition count_ge (a b : string * Z) : Prop := (snd a >= snd b)%Z.

(** The order the specification asks of two neighbouring rows: a larger
    count first, and for equal counts the lexically smaller name first. *)
Definition spec_precedes (a b : string * Z) : bool :=
  (snd b <? snd a)%Z || ((snd a =? snd b)%Z && String.ltb (fst a) (fst b)).

Fixpoint spec_ordered (rows : list (string * Z)) : bool :=
  match rows with
  | a :: ((b :: _) as rest) => spec_precedes a b && spec_ordered rest
  | _ => true
  end.

(** A graph that has only nodes, of the given operator types. *)
Definition graph_of_ops (ops : list string) : GraphProto :=
  {| graph_name := "";
     node := map (fun op => {| node_name := ""; op_type := op;
                               node_input := []; node_output := [] |}) ops;
     input := []; output := []; initializer := [] |}.

(* ================================================================= *)
(** ** The parameter count *)

(** A signed 64-bit integer, with wrap-around. *)
Definition wrap64 (z : Z) : Z := ((z + 2 ^ 63) mod 2 ^ 64 - 2 ^ 63)%Z.

(** [np.prod(dims)] for a non-empty sequence of integers: the product is
    accumulated in an int64 and wraps silently. *)
Definition np_prod (ds : list Z) : Z :=
  fold_left (fun acc d => wrap64 (acc * d)) ds 1%Z.

(** [sum(int(np.prod(init.dims)) for init in graph.initializer if init.dims)]. *)
Definition total_params (g : GraphProto) : Z :=
  fold_left Z.add
    (map (fun init => np_prod (dims init))
         (List.filter (fun init => negb (length (dims init) =? 0)%nat)
                      (initializer g)))
    0%Z.

(** The exact product of a sequence of integers. *)
Definition product (ds : list Z) : Z := fold_right Z.mul 1%Z ds.

(** What one initializer adds to the count. *)
Definition param_count (init : TensorProto) : Z :=
  match dims init with
  | [] => 0%Z
  | ds => np_prod ds
  end.

(** The same with the exact product. *)
Definition exact_param_count (init : TensorProto) : Z :=
  match dims init with
  | [] => 0%Z
  | ds => product ds
  end.

(** The dims of a tensor that fits an int64 element count. *)
Definition fits_int64 (init : TensorProto) : Prop :=
  Forall (fun d => (0 <= d)%Z) (dims init) /\ (product (dims init) < 2 ^ 63)%Z.

Definition graph_of_initializers (inits : list TensorProto) : GraphProto :=
  {| graph_name := ""; node := []; input := []; output := [];
     initializer := inits |}.

Definition sum_list (l : list Z) : Z := fold_right Z.add 0%Z l.

(* ================================================================= *)
(** ** Magnitude formatting *)

(** A binary64 number: [mantissa * 2 ^ exponent], negated when [negative]. *)
Record float := {
  negative : bool;
  mantissa : Z;
  exponent : Z
}.

(** The integer nearest to [num / den], ties to the even one ([den > 0]). *)
Definition round_half_even (num den : Z) : Z :=
  let q := (num / den)%Z in
  let r := (num mod den)%Z in
  if (2 * r <? den)%Z then q
  else if (den <? 2 * r)%Z then (q + 1)%Z
  else if Z.even q then q else (q + 1)%Z.

(** The fraction [p / (q * 2 ^ e)]. *)
Definition scaled (p q e : Z) : Z * Z :=
  if (0 <=? e)%Z then (p, q * 2 ^ e)%Z else (p * 2 ^ (- e), q)%Z.

(** [floor (log2 (p / q))] for positive [p] and [q]. *)
Definition quotient_log2 (p q : Z) : Z :=
  let d := (Z.log2 p - Z.log2 q)%Z in
  let '(num, den) := scaled p q d in
  if (den <=? num)%Z then d else (d - 1)%Z.

(** [2 ^ 1024 <= m * 2 ^ e]: the number is beyond the binary64 range. *)
Definition too_large (m e : Z) : bool :=
  if (0 <=? e)%Z then (2 ^ 1024 <=? m * 2 ^ e)%Z
  else (2 ^ (1024 - e) <=? m)%Z.

(** [p / q] on integers: the quotient correctly rounded to binary64 (53
    bits of mantissa, exponent not below -1074); [None] is ZeroDivisionError
    or OverflowError. *)
Definition true_divide (p q : Z) : option float :=
  if (q =? 0)%Z then None
  else
    let neg := xorb (p <? 0)%Z (q <? 0)%Z in
    let a := Z.abs p in
    let b := Z.abs q in
    if (a =? 0)%Z then Some {| negative := neg; mantissa := 0; exponent := 0 |}
    else
      let e := Z.max (quotient_log2 a b - 52) (-1074) in
      let '(num, den) := scaled a b e in
      let m := round_half_even num den in
      if too_large m e then None
      else Some {| negative := neg; mantissa := m; exponent := e |}.

(** A number of hundredths printed with two decimals. *)
Definition fixed2 (c : Z) : string :=
  str_of_Z (c / 100) +:+ "." +:+ str_of_Z ((c / 10) mod 10) +:+ str_of_Z (c mod 10).

(** The hundredths shown for a binary64 number: its absolute value times 100,
    rounded to the nearest integer, ties to even. *)
Definition hundredths (x : float) : Z :=
  if (0 <=? exponent x)%Z then (mantissa x * 2 ^ exponent x * 100)%Z
  else round_half_even (mantissa x * 100) (2 ^ (- exponent x)).

(** A decimal digit. *)
Definition is_digit (a : ascii) : bool :=
  (48 <=? nat_of_ascii a)%nat && (nat_of_ascii a <=? 57)%nat.

(** [f"{x:.2f}"]. *)
Definition format_2f (x : float) : string :=
  (if negative x then "-" else "") +:+ fixed2 (hundredths x).

(** Lines 107-112 of [show_metadata] and 127-132 of [show_model_info]. *)
Definition format_params (total_params : Z) : option string :=
  if (1000000 <=? total_params)%Z then
    match true_divide total_params 1000000 with
    | Some x => Some (format_2f x +:+ "M")
    | None => None
    end
  else if (1000 <=? total_params)%Z then
    match true_divide total_params 1000 with
    | Some x => Some (format_2f x +:+ "K")
    | None => None
    end
  else Some (str_of_Z total_params).

(* ================================================================= *)
(** ** onnx_viewer_gui.py: the structure tree *)

(** What [setData(0, Qt.UserRole, ...)] attaches to a leaf: the kind of the
    entity and the entity itself. *)
Inductive ItemData :=
| InputTensor (tensor : ValueInfoProto)
| NodeRef (n : NodeProto)
| InitializerTensor (tensor : TensorProto)
| OutputTensor (tensor : ValueInfoProto).

(** A [QTreeWidgetItem]: its text, its data and its children. *)
#[local] Set Warnings "-register-all".
Inductive QTreeWidgetItem :=
| TreeItem (text : string) (data : option ItemData)
           (children : list QTreeWidgetItem).

Definition item_text (it : QTreeWidgetItem) : string :=
  match it with TreeItem t _ _ => t end.

Definition item_children (it : QTreeWidgetItem) : list QTreeWidgetItem :=
  match it with TreeItem _ _ c => c end.

(** One entry of the shape, as [get_tensor_shape] prints it. *)
Definition dim_text (d : Dimension) : string :=
  if (0 <? dim_value d)%Z then str_of_Z (dim_value d)
  else if is_empty (dim_param d) then "?"
  else dim_param d.

(** [get_tensor_shape]; the reading of a typed message cannot raise, so the
    fallback of the [except] clause is never taken. *)
Definition get_tensor_shape (tensor : ValueInfoProto) : string :=
  "[" +:+ join ", " (map dim_text (shape_dim tensor)) +:+ "]".

Definition dtype_names : list (Z * string) :=
  [(0, "UNDEFINED"); (1, "FLOAT32"); (2, "UINT8"); (3, "INT8");
   (4, "UINT16"); (5, "INT16"); (6, "INT32"); (7, "INT64");
   (8, "STRING"); (9, "BOOL"); (10, "FLOAT16"); (11, "DOUBLE");
   (12, "UINT32"); (13, "UINT64"); (14, "COMPLEX64"); (15, "COMPLEX128");
   (16, "BFLOAT16")]%Z.

Fixpoint table_get (code : Z) (table : list (Z * string)) : option string :=
  match table with
  | [] => None
  | (c, name) :: rest => if (c =? code)%Z then Some name else table_get code rest
  end.

(** [get_dtype_name]. *)
Definition get_dtype_name (dtype : Z) : string :=
  match table_get dtype dtype_names with
  | Some name => name
  | None => "UNKNOWN(" +:+ str_of_Z dtype +:+ ")"
  end.

(** [str(list(dims))]. *)
Definition str_of_dims (ds : list Z) : string :=
  "[" +:+ join ", " (map str_of_Z ds) +:+ "]".

(** [op_groups[node.op_type].append(node)] on a [defaultdict(list)]. *)
Definition group_node (groups : pydict (list NodeProto)) (n : NodeProto)
    : pydict (list NodeProto) :=
  dict_setitem (op_type n)
    (match dict_get (op_type n) groups with Some ns => ns | None => [] end
     ++ [n])
    groups.

Definition op_groups (nodes : list NodeProto) : pydict (list NodeProto) :=
  fold_left group_node nodes [].

(** The leaf of a graph input or output. *)
Definition tensor_item (kind : ValueInfoProto -> ItemData)
    (tensor : ValueInfoProto) : QTreeWidgetItem :=
  TreeItem
    (vi_name tensor
     +:+ String LF (get_tensor_shape tensor +:+ " | "
                    +:+ get_dtype_name (elem_type tensor)))
    (Some (kind tensor)) [].

(** [", ".join(names) if names else "无"]. *)
Definition names_text (names : list string) : string :=
  match names with
  | [] => "无"
  | _ => join ", " names
  end.

(** The leaf of a node. *)
Definition node_item (n : NodeProto) : QTreeWidgetItem :=
  TreeItem
    (node_name n
     +:+ String LF ("输入: " +:+ names_text (node_input n)
                    +:+ String LF ("输出: " +:+ names_text (node_output n))))
    (Some (NodeRef n)) [].

(** The item of an operator type, over the nodes grouped under it. *)
Definition group_item (op : string) (members : list NodeProto)
    : QTreeWidgetItem :=
  TreeItem (op +:+ " (" +:+ str_of_Z (Z.of_nat (length members)) +:+ ")")
           None (map node_item members).

(** The leaf of an initializer. *)
Definition initializer_item (init : TensorProto) : QTreeWidgetItem :=
  TreeItem
    (tensor_name init
     +:+ String LF ("形状: " +:+ str_of_dims (dims init) +:+ " | "
                    +:+ get_dtype_name (data_type init)))
    (Some (InitializerTensor init)) [].

(** [update_structure_tree] for a loaded model: the top-level items of the
    tree widget after the call, in the order in which they were added. *)
Definition update_structure_tree (g : GraphProto) : list QTreeWidgetItem :=
  let input_item :=
    TreeItem "[IN] 输入" None (map (tensor_item InputTensor) (input g)) in
  let groups := op_groups (node g) in
  let nodes_item :=
    TreeItem "[OP] 节点" None
      (map (fun op =>
              group_item op
                (match dict_get op groups with Some ns => ns | None => [] end))
           (sorted_strings (dict_keys groups))) in
  let init_items :=
    match initializer g with
    | [] => []
    | inits => [TreeItem "[W] 初始值 (权重)" None (map initializer_item inits)]
    end in
  let output_item :=
    TreeItem "[OUT] 输出" None (map (tensor_item OutputTensor) (output g)) in
  [input_item; nodes_item] ++ init_items ++ [output_item].

(** The nodes of one operator type, in the order of [graph.node]. *)
Definition nodes_of_type (op : string) (nodes : list NodeProto)
    : list NodeProto :=
  List.filter (fun n => String.eqb (op_type n) op) nodes.

(** Strictly ascending in the order of [String.compare]. *)
Definition str_lt (a b : string) : Prop := String.ltb a b = true.

Definition example_graph : GraphProto :=
  {| graph_name := "g";
     node := [ {| node_name := "r1"; op_type := "Relu";
                  node_input := ["x"]; node_output := ["a"] |};
               {| node_name := "c1"; op_type := "Conv";
                  node_input := ["a"]; node_output := ["b"] |};
               {| node_name := "r2"; op_type := "Relu";
                  node_input := ["b"]; node_output := ["y"] |} ];
     input := [ {| vi_name := "x"; elem_type := 1;
                   shape_dim := [ {| dim_value := 0; dim_param := "N" |};
                                  {| dim_value := 3; dim_param := "" |};
                                  {| dim_value := 0; dim_param := "" |} ] |} ];
     output := [ {| vi_name := "y"; elem_type := 42; shape_dim := [] |} ];
     initializer := [] |}.

(* ================================================================= *)
(** ** Further reference definitions for reading text files *)

(** The same text with Windows line ends: every line feed becomes a
    carriage return and a line feed. *)
Fixpoint to_crlf (s : string) : string :=
  match s with
  | EmptyString => EmptyString
  | String a s' =>
      if Ascii.eqb a LF then String CR (String LF (to_crlf s'))
      else String a (to_crlf s')
  end.

(** The lines that are empty once their line feeds are removed. *)
Definition blank_lines (lines : list string) : list string :=
  List.filter (fun raw => is_empty (rstrip LF raw)) lines.

(* ================================================================= *)
(** ** onnx_dump.py: the summary of show_metadata *)

(** Lines 89-91 of [show_metadata]: a value longer than 50 characters is cut to 47
    and three dots. Python counts characters, so the value is taken here as
    the sequence of its characters, whatever a character is. *)
Definition display_value {A} (dot : A) (value : list A) : list A :=
  if (50 <? length value)%nat then firstn 47 value ++ [dot; dot; dot]
  else value.

(** Lines 98-112: the counts of the summary. [op_types] is
    [len(set(node.op_type for node in graph.node))]. *)
Record Summary := {
  total_nodes : nat;
  total_inputs : nat;
  total_outputs : nat;
  total_initializers : nat;
  op_types : nat;
  params_str : option string
}.

Definition summary (g : GraphProto) : Summary :=
  {| total_nodes := length (node g);
     total_inputs := length (input g);
     total_outputs := length (output g);
     total_initializers := length (initializer g);
     op_types := size (list_to_set (map op_type (node g)) : gset string);
     params_str := format_params (total_params g) |}.

(* ================================================================= *)
(** ** onnx_dump.py: the operator table *)







(** The tenths shown for a binary64 number by [.1f]. *)
Definition tenths (x : float) : Z :=
  if (0 <=? exponent x)%Z then (mantissa x * 2 ^ exponent x * 10)%Z
  else round_half_even (mantissa x * 10) (2 ^ (- exponent x)).

Definition fixed1 (c : Z) : string :=
  str_of_Z (c / 10) +:+ "." +:+ str_of_Z (c mod 10).

(** [f"{x:.1f}"]. *)
Definition format_1f (x : float) : string :=
  (if negative x then "-" else "") +:+ fixed1 (tenths x).





(* ================================================================= *)
(** ** onnx_dump.py: the table of initializers *)



(** Lines 189-194: the element count of one tensor, with one decimal. *)
Definition format_elements (total_elements : Z) : option string :=
  if (1000000 <=? total_elements)%Z then
    match true_divide total_elements 1000000 with
    | Some x => Some (format_1f x +:+ "M")
    | None => None
    end
  else if (1000 <=? total_elements)%Z then
    match true_divide total_elements 1000 with
    | Some x => Some (format_1f x +:+ "K")
    | None => None
    end
  else Some (str_of_Z total_elements).






(* ================================================================= *)
(** ** onnx_viewer_gui.py: the details of a tensor *)

(** Lines 426-427 of [show_tensor_info]: the text shown for one dimension. *)
Definition dim_detail (d : Dimension) : string :=
  let dim_name := if is_empty (dim_param d) then "?" else dim_param d in
  if (0 <? dim_value d)%Z then str_of_Z (dim_value d) else dim_name.

(** One entry of the shape in [get_tensor_shape] of onnx_dump.py: the names
    and the question marks carry markup. *)
Definition rich_dim_text (d : Dimension) : string :=
  if (0 <? dim_value d)%Z then str_of_Z (dim_value d)
  else if is_empty (dim_param d) then "[dim]?[/dim]"
  else "[dim]" +:+ dim_param d +:+ "[/dim]".

(* ================================================================= *)
(** ** Properties *)

Example parse_example :
  parse_metadata ["a" +:+ String TAB "1" +:+ String LF "";
                  "b" +:+ String TAB "2" +:+ String LF "";
                  "a" +:+ String TAB "3"]
  = [("a", "3"); ("b", "2")].
Proof. reflexivity. Qed.

(* ================================================================= *)
(** ** The in-place operations on one message object *)

Section InPlace.
Context (model : loc) (doc : ModelProto) (h : gmap loc ModelProto).

Lemma with_metadata_props_twice ps qs :
  with_metadata_props (with_metadata_props doc ps) qs
  = with_metadata_props doc qs.
Proof. reflexivity. Qed.

Lemma props_of_insert : props_of model (<[model := doc]> h) = metadata_props doc.
Proof. unfold props_of. now rewrite lookup_insert_eq. Qed.

Lemma modify_props_insert f :
  modify_props f model (<[model := doc]> h)
  = <[model := with_metadata_props doc (f (metadata_props doc))]> h.
Proof. unfold modify_props. now rewrite alter_insert_eq. Qed.
End InPlace.

Lemma del_props_insert model idxs : forall doc h,
  del_props model idxs (<[model := doc]> h)
  = option_map (fun ps => <[model := with_metadata_props doc ps]> h)
               (del_indices idxs (metadata_props doc)).
Proof.
  induction idxs as [|i rest IH]; intros doc h; simpl.
  - f_equal. destruct doc; reflexivity.
  - unfold del_prop. rewrite props_of_insert.
    destruct (i <? length (metadata_props doc))%nat; [|reflexivity].
    rewrite modify_props_insert, IH. reflexivity.
Qed.

Lemma add_props_insert model items : forall doc h,
  add_props model items (<[model := doc]> h)
  = <[model := with_metadata_props doc (metadata_props doc ++ map entry_of items)]> h.
Proof.
  induction items as [|[k v] rest IH]; intros doc h; simpl.
  - rewrite app_nil_r. destruct doc; reflexivity.
  - unfold add_prop. rewrite modify_props_insert, IH. simpl.
    now rewrite <- app_assoc.
Qed.

(* ================================================================= *)
(** ** Deleting the collected indices from the back *)

Lemma del_indices_app {A} (a b : list nat) : forall l : list A,
  del_indices (a ++ b) l
  = match del_indices a l with
    | Some l' => del_indices b l'
    | None => None
    end.
Proof.
  induction a as [|i a IH]; intros l; simpl; [reflexivity|].
  destruct (i <? length l)%nat; [apply IH | reflexivity].
Qed.

Lemma del_index_middle {A} (pre : list A) x suf :
  del_index (length pre) (pre ++ x :: suf) = pre ++ suf.
Proof. induction pre as [|a pre IH]; simpl; [reflexivity | now rewrite IH]. Qed.

Lemma del_collected_from (d : pydict string) suf : forall pre,
  del_indices
    (rev (map fst (List.filter (fun ip => dict_contains (key (snd ip)) d)
                     (enumerate_from (length pre) suf))))
    (pre ++ suf)
  = Some (pre ++ List.filter (untouched d) suf).
Proof.
  induction suf as [|p suf IH]; intros pre; simpl; [reflexivity|].
  unfold untouched at 1.
  specialize (IH (pre ++ [p])).
  rewrite length_app, Nat.add_1_r, <- app_assoc in IH. simpl in IH.
  destruct (dict_contains (key p) d); simpl.
  - rewrite del_indices_app, IH. simpl.
    rewrite <- app_assoc. simpl.
    assert (Hlt : (length pre <? length (pre ++ p :: List.filter (untouched d) suf))%nat = true).
    { apply Nat.ltb_lt. rewrite length_app. simpl. lia. }
    rewrite Hlt. now rewrite del_index_middle.
  - rewrite IH. now rewrite <- app_assoc.
Qed.

Lemma del_collected (d : pydict string) props :
  del_indices (rev (collect_keys_to_remove d props)) props
  = Some (List.filter (untouched d) props).
Proof. exact (del_collected_from d props []). Qed.

Lemma collect_length (d : pydict string) props :
  length (collect_keys_to_remove d props)
  = length (List.filter (fun p => dict_contains (key p) d) props).
Proof.
  unfold collect_keys_to_remove. rewrite length_map.
  generalize 0%nat. induction props as [|p ps IH]; intros n; simpl; [reflexivity|].
  destruct (dict_contains (key p) d); simpl; now rewrite IH.
Qed.

(** The transform never raises: it rewrites the list of the object it is
    given, and nothing else. *)
Lemma update_metadata_insert mode d model doc h :
  update_metadata mode d model (<[model := doc]> h)
  = Some (match mode with
          | Replace => []
          | Merge => collect_keys_to_remove d (metadata_props doc)
          end,
          <[model := with_metadata_props doc
                       (expected_props mode d (metadata_props doc))]> h).
Proof.
  destruct mode; simpl.
  - rewrite props_of_insert, del_props_insert, del_collected. simpl.
    now rewrite add_props_insert.
  - unfold clear_props. rewrite modify_props_insert, add_props_insert.
    reflexivity.
Qed.

(* ================================================================= *)
(** ** Facts about dictionaries and the expected lists *)

Lemma dict_contains_In {V} (k : string) (d : pydict V) :
  dict_contains k d = true <-> In k (dict_keys d).
Proof.
  unfold dict_contains, dict_keys. rewrite existsb_exists, in_map_iff.
  split; intros [e [H1 H2]]; exists e.
  - apply String.eqb_eq in H2. now split.
  - split; [assumption | now apply String.eqb_eq].
Qed.

Lemma keys_of_entries (d : pydict string) : map key (map entry_of d) = dict_keys d.
Proof. unfold dict_keys. rewrite map_map. reflexivity. Qed.

Lemma filter_idem {A} (f : A -> bool) l :
  List.filter f (List.filter f l) = List.filter f l.
Proof.
  induction l as [|a l IH]; simpl; [reflexivity|].
  destruct (f a) eqn:E; simpl; [rewrite E|]; now rewrite IH.
Qed.

Lemma filter_none {A} (f : A -> bool) l :
  Forall (fun a => f a = false) l -> List.filter f l = [].
Proof. induction 1 as [|a l Ha _ IH]; simpl; [reflexivity | now rewrite Ha]. Qed.

Lemma filter_all {A} (f : A -> bool) l :
  Forall (fun a => f a = true) l -> List.filter f l = l.
Proof. induction 1 as [|a l Ha _ IH]; simpl; [reflexivity | now rewrite Ha, IH]. Qed.

Lemma entries_touched (d : pydict string) :
  Forall (fun p => dict_contains (key p) d = true) (map entry_of d).
Proof.
  apply List.Forall_forall. intros p Hp. apply in_map_iff in Hp as [kv [<- Hkv]].
  apply dict_contains_In. unfold dict_keys. simpl. now apply in_map.
Qed.

Lemma survivors_untouched (d : pydict string) props :
  Forall (fun p => dict_contains (key p) d = false) (List.filter (untouched d) props).
Proof.
  apply List.Forall_forall. intros p Hp. apply filter_In in Hp as [_ Hp].
  unfold untouched in Hp. now apply negb_true_iff in Hp.
Qed.

Lemma filter_length_split {A} (f : A -> bool) l :
  (length (List.filter f l) + length (List.filter (fun a => negb (f a)) l)
   = length l)%nat.
Proof.
  induction l as [|a l IH]; simpl; [reflexivity|].
  destruct (f a); simpl; lia.
Qed.

(* ================================================================= *)
(** ** The checker, the files and the run of an import *)

Lemma distinct_NoDup ks : distinct ks = true <-> NoDup ks.
Proof.
  induction ks as [|k ks IH]; simpl.
  - split; [constructor | reflexivity].
  - rewrite andb_true_iff, negb_true_iff, IH, NoDup_cons,
      <- not_true_iff_false, existsb_exists.
    split; intros [Hk Hks]; (split; [|assumption]); intros Hin; apply Hk.
    + apply list_elem_of_In in Hin. exists k. split; [assumption|].
      apply String.eqb_refl.
    + destruct Hin as [k' [Hin Heq]]. apply String.eqb_eq in Heq. subst k'.
      now apply list_elem_of_In.
Qed.

(** A model that the checker accepts has pairwise distinct metadata keys
    and an IR version. *)
Lemma check_model_keys {L : Onnx} doc :
  check_model doc = true -> NoDup (map key (metadata_props doc)).
Proof.
  unfold check_model. rewrite !andb_true_iff. intros [[_ H] _].
  now apply distinct_NoDup.
Qed.

Lemma check_model_ir_version {L : Onnx} doc :
  check_model doc = true -> ir_version doc <> 0%Z.
Proof.
  unfold check_model. rewrite !andb_true_iff, negb_true_iff.
  intros [[H _] _]. now apply Z.eqb_neq.
Qed.

Lemma check_model_repeated_keys {L : Onnx} doc :
  ~ NoDup (map key (metadata_props doc)) -> check_model doc = false.
Proof.
  intros H. destruct (check_model doc) eqn:E; [|reflexivity].
  now apply check_model_keys in E.
Qed.

(** Reading a path other than the one just written. *)
Lemma read_text_with_file_ne {L : Onnx} path p f st :
  path <> p -> read_text path (with_file st p f) = read_text path st.
Proof.
  intros Hne. unfold read_text, with_file. cbn [files].
  now rewrite lookup_insert_ne.
Qed.

Lemma read_model_with_file_ne {L : Onnx} path p f st :
  path <> p -> read_model path (with_file st p f) = read_model path st.
Proof.
  intros Hne. unfold read_model, with_file. cbn [files].
  now rewrite lookup_insert_ne.
Qed.

Lemma read_text_written {L : Onnx} path content st :
  read_text path (with_file st path (TextFile content)) = Some content.
Proof. unfold read_text, with_file. cbn [files]. now rewrite lookup_insert_eq. Qed.

Lemma read_model_saved {L : Onnx} path doc st :
  read_model path (with_file st path (ModelFile doc)) = Some doc.
Proof. unfold read_model, with_file. cbn [files]. now rewrite lookup_insert_eq. Qed.

(** The run of [import_metadata] when the metadata file can be read, the
    model file is accepted by the checker and the output can be written. *)
Lemma import_metadata_run {L : Onnx} mp mf op mode st doc content :
  read_model mp st = Some doc ->
  check_model doc = true ->
  read_text mf st = Some content ->
  writable op st = true ->
  let d := parse_metadata (iter_lines (universal_newlines content)) in
  let doc' :=
    with_metadata_props doc (expected_props mode d (metadata_props doc)) in
  import_metadata mp mf op mode st
  = (0%Z,
     Some (make_report mode d (length (metadata_props doc))
             (match mode with
              | Replace => []
              | Merge => collect_keys_to_remove d (metadata_props doc)
              end)
             (length (metadata_props doc'))),
     with_file (with_heap st (<[fresh (dom (heap st)) := doc']> (heap st)))
       op (ModelFile doc')).
Proof.
  intros Hm Hc Ht Hw d doc'.
  unfold import_metadata, checker_check_model, onnx_load.
  rewrite Ht, Hm, Hc. cbn [heap with_heap].
  rewrite props_of_insert, update_metadata_insert.
  unfold onnx_save, writable in *. cbn [heap with_heap unwritable].
  rewrite Hw, lookup_insert_eq, props_of_insert. reflexivity.
Qed.

(** The runs of [import_metadata] that end with code 1: no report is
    printed and no file has changed. *)
Lemma import_metadata_refused {L : Onnx} mp mf op mode st :
  read_text mf st = None \/ checker_check_model mp st = false ->
  import_metadata mp mf op mode st = (1%Z, None, st).
Proof.
  unfold import_metadata. intros [H|H]; rewrite H; [reflexivity|].
  now destruct (read_text mf st).
Qed.

Lemma import_metadata_not_saved {L : Onnx} mp mf op mode st doc content :
  read_model mp st = Some doc ->
  check_model doc = true ->
  read_text mf st = Some content ->
  writable op st = false ->
  exists h,
    import_metadata mp mf op mode st = (1%Z, None, with_heap st h).
Proof.
  intros Hm Hc Ht Hw.
  unfold import_metadata, checker_check_model, onnx_load.
  rewrite Ht, Hm, Hc. cbn [heap with_heap].
  rewrite update_metadata_insert.
  unfold onnx_save, writable in *. cbn [heap with_heap unwritable].
  rewrite Hw. eexists. reflexivity.
Qed.

(* ================================================================= *)
(** ** Merge mode *)

(** C1. In merge mode the transform leaves in the document the original
    entries whose key the incoming mapping does not mention, in their
    original order and with their values, every entry whose key it does
    mention being removed (all of them, also repeated ones), followed by the
    entries of the mapping in the mapping's order. *)
Theorem merge_keeps_untouched_then_appends (d : pydict string)
    (model : loc) (doc : ModelProto) (h : gmap loc ModelProto) :
  let props := metadata_props doc in
  let result := List.filter (untouched d) props ++ map entry_of d in
  update_metadata Merge d model (<[model := doc]> h)
  = Some (collect_keys_to_remove d props,
          <[model := with_metadata_props doc result]> h)
  /\ Forall (fun p => dict_contains (key p) d = false)
            (List.filter (untouched d) props)
  /\ List.filter (untouched d) result = List.filter (untouched d) props
  /\ List.filter (fun p => dict_contains (key p) d) result = map entry_of d.
Proof.
  intros props result. split; [|split; [|split]].
  - apply (update_metadata_insert Merge).
  - apply survivors_untouched.
  - unfold result. rewrite List.filter_app, filter_idem.
    rewrite (filter_none (untouched d) (map entry_of d)), app_nil_r; [reflexivity|].
    eapply List.Forall_impl; [|apply entries_touched].
    intros p Hp. unfold untouched. now rewrite Hp.
  - unfold result. rewrite List.filter_app.
    rewrite (filter_none _ (List.filter (untouched d) props))
      by apply survivors_untouched.
    simpl. apply filter_all, entries_touched.
Qed.

(* ================================================================= *)
(** ** Uniqueness of keys in the result *)

Lemma keys_of_survivors_fresh (d : pydict string) props k :
  In k (map key (List.filter (untouched d) props)) -> ~ In k (dict_keys d).
Proof.
  intros Hk Hd. apply in_map_iff in Hk as [p [<- Hp]].
  apply List.filter_In in Hp as [_ Hp]. unfold untouched in Hp.
  apply dict_contains_In in Hd. rewrite Hd in Hp. discriminate.
Qed.

Lemma NoDup_filter_keys (f : StringStringEntryProto -> bool) props :
  NoDup (map key props) -> NoDup (map key (List.filter f props)).
Proof.
  induction props as [|p ps IH]; simpl; intros H; [constructor|].
  apply NoDup_cons in H as [Hp Hps].
  destruct (f p); simpl; [|now apply IH].
  apply NoDup_cons. split; [|now apply IH].
  intros Hin. apply Hp. apply list_elem_of_In.
  apply list_elem_of_In, in_map_iff in Hin as [q [Hq Hin]].
  apply List.filter_In in Hin as [Hin _]. rewrite <- Hq. now apply in_map.
Qed.

Lemma expected_keys_unique_iff mode (d : pydict string) props :
  NoDup (dict_keys d) ->
  NoDup (map key (expected_props mode d props))
  <-> mode = Replace \/ NoDup (map key (List.filter (untouched d) props)).
Proof.
  intros Hd. destruct mode; simpl.
  - rewrite map_app, keys_of_entries, NoDup_app. split.
    + intros [H _]. now right.
    + intros [H|H]; [discriminate|].
      split; [assumption|]. split; [|assumption].
      intros k Hk Hk'. apply list_elem_of_In in Hk, Hk'.
      now apply (keys_of_survivors_fresh d props k).
  - rewrite keys_of_entries. split; [now left | now intros _].
Qed.

(* ================================================================= *)
(** ** The report of merge mode *)

(** The three numbers printed in merge mode, for any document and mapping:
    "updated" is the number of entries removed, "added" is the size of the
    mapping, "retained" is the number of entries kept. *)
Lemma merge_report_counts (d : pydict string) props :
  make_report Merge d (length props) (collect_keys_to_remove d props)
    (length (expected_props Merge d props))
  = MergeReport
      (Z.of_nat (length d))
      (Z.of_nat (length (List.filter (fun p => dict_contains (key p) d) props)))
      (Z.of_nat (length d))
      (Z.of_nat (length (List.filter (untouched d) props))).
Proof.
  unfold make_report, expected_props.
  rewrite collect_length, length_app, length_map.
  pose proof (filter_length_split (fun p => dict_contains (key p) d) props) as H.
  cbv beta in H. fold (untouched d) in H.
  f_equal; lia.
Qed.

(** C3, at the scenario of the specification. The list written is
    [(x,1),(y,9),(z,5)] and the report says updated 1 and retained 1, but it
    says added 2 where the claim, and the meaning of the word, ask for
    [|M| - updated = 1]: line 118 subtracts the number of retained entries
    from the new length, which always leaves [|M|]. The model of the
    scenario is one that the checker accepts. *)
Theorem scenario_report_counts_two_added {L : Onnx} :
  check_model scenario_model = true ->
  exists st',
    import_metadata "model.onnx" "meta.txt" "out.onnx" Merge scenario_state
    = (0%Z, Some (MergeReport 2 1 2 1), st')
    /\ files st' !! "out.onnx"
       = Some (ModelFile
                 (with_metadata_props scenario_model
                    [MkProp "x" "1"; MkProp "y" "9"; MkProp "z" "5"])).
Proof.
  intros Hc. eexists. split.
  - rewrite (import_metadata_run _ _ _ _ _ scenario_model scenario_text)
      by (assumption || reflexivity).
    reflexivity.
  - unfold with_file. cbn [files]. rewrite lookup_insert_eq. reflexivity.
Qed.

Lemma scenario_report_counts_two_added_witness :
  check_model (L := plain_onnx) scenario_model = true
  /\ exists st',
       import_metadata (L := plain_onnx)
         "model.onnx" "meta.txt" "out.onnx" Merge scenario_state
       = (0%Z, Some (MergeReport 2 1 2 1), st')
       /\ files st' !! "out.onnx"
          = Some (ModelFile
                    (with_metadata_props scenario_model
                       [MkProp "x" "1"; MkProp "y" "9"; MkProp "z" "5"])).
Proof.
  split; [reflexivity|].
  apply (scenario_report_counts_two_added (L := plain_onnx)). reflexivity.
Defined.

(* ================================================================= *)
(** ** The transform works in place *)

(** C5, as the code has it. [import_metadata] creates one message object,
    the one [onnx.load] returns, and rewrites its [metadata_props] in place:
    after the call that same object carries the new list, its other fields
    are as loaded, and no other object has changed. The object is then
    written to [output_path], where it replaces whatever that path held, be
    it the model file or the metadata file; every other file is as before,
    so the model file whenever [output_path] differs from [model_path]. *)
Theorem import_rewrites_loaded_document_in_place {L : Onnx}
    (model_path metadata_file output_path : string) (mode : Mode)
    (st : State) (doc : ModelProto) (content : string) :
  read_model model_path st = Some doc ->
  check_model doc = true ->
  read_text metadata_file st = Some content ->
  writable output_path st = true ->
  let d := parse_metadata (iter_lines (universal_newlines content)) in
  let doc' :=
    with_metadata_props doc (expected_props mode d (metadata_props doc)) in
  exists rep st',
    import_metadata model_path metadata_file output_path mode st
    = (0%Z, Some rep, st')
    /\ heap st' = <[fresh (dom (heap st)) := doc']> (heap st)
    /\ files st' = <[output_path := ModelFile doc']> (files st)
    /\ graph doc' = graph doc
    /\ (forall path, path <> output_path ->
        files st' !! path = files st !! path)
    /\ (output_path <> model_path -> read_model model_path st' = Some doc).
Proof.
  intros Hm Hc Ht Hw d doc'. eexists _, _.
  split; [apply (import_metadata_run _ _ _ _ _ doc content Hm Hc Ht Hw)|].
  split; [reflexivity|]. split; [reflexivity|]. split; [reflexivity|].
  split.
  - intros path Hne. unfold with_file. cbn [files]. now rewrite lookup_insert_ne.
  - intros Hne. rewrite read_model_with_file_ne by congruence. exact Hm.
Qed.

Lemma import_rewrites_loaded_document_in_place_witness :
  read_model (L := plain_onnx) "model.onnx" scenario_state = Some scenario_model
  /\ check_model (L := plain_onnx) scenario_model = true
  /\ read_text (L := plain_onnx) "meta.txt" scenario_state = Some scenario_text
  /\ writable "out.onnx" scenario_state = true
  /\ exists rep st',
       import_metadata (L := plain_onnx)
         "model.onnx" "meta.txt" "out.onnx" Merge scenario_state
       = (0%Z, Some rep, st')
       /\ heap st'
          = <[fresh (dom (heap scenario_state)) :=
                with_metadata_props scenario_model
                  [MkProp "x" "1"; MkProp "y" "9"; MkProp "z" "5"]]>
              (heap scenario_state)
       /\ files st'
          = <["out.onnx" :=
                ModelFile
                  (with_metadata_props scenario_model
                     [MkProp "x" "1"; MkProp "y" "9"; MkProp "z" "5"])]>
              (files scenario_state)
       /\ graph (with_metadata_props scenario_model
                   [MkProp "x" "1"; MkProp "y" "9"; MkProp "z" "5"])
          = graph scenario_model
       /\ (forall path, path <> "out.onnx" ->
           files st' !! path = files scenario_state !! path)
       /\ ("out.onnx" <> "model.onnx" ->
           read_model (L := plain_onnx) "model.onnx" st' = Some scenario_model).
Proof.
  split; [reflexivity|]. split; [reflexivity|].
  split; [reflexivity|]. split; [reflexivity|].
  apply (import_rewrites_loaded_document_in_place (L := plain_onnx)
           "model.onnx" "meta.txt" "out.onnx" Merge scenario_state
           scenario_model scenario_text); reflexivity.
Defined.

(** C5 fails as stated. The object handed to the transform is itself
    changed (its list is [(x,1),(y,2)] before and [(x,1),(y,9),(z,5)] after,
    and the heap holds no second document); and when the output path is the
    model path, the model file is overwritten. *)
Lemma transform_mutates_its_input :
  (exists ktr h',
     update_metadata Merge [("y", "9"); ("z", "5")] 0
       (<[0%nat := scenario_model]> ∅) = Some (ktr, h')
     /\ props_of 0 (<[0%nat := scenario_model]> ∅)
        = [MkProp "x" "1"; MkProp "y" "2"]
     /\ props_of 0 h' = [MkProp "x" "1"; MkProp "y" "9"; MkProp "z" "5"]
     /\ h' !! 0%nat <> Some scenario_model
     /\ dom h' = dom (<[0%nat := scenario_model]> (∅ : gmap loc ModelProto)))
  /\ (exists rep st',
        import_metadata (L := plain_onnx)
          "model.onnx" "meta.txt" "model.onnx" Merge scenario_state
        = (0%Z, Some rep, st')
        /\ files scenario_state !! "model.onnx" = Some (ModelFile scenario_model)
        /\ files st' !! "model.onnx"
           = Some (ModelFile
                     (with_metadata_props scenario_model
                        [MkProp "x" "1"; MkProp "y" "9"; MkProp "z" "5"]))
        /\ files st' !! "model.onnx" <> files scenario_state !! "model.onnx").
Proof.
  split.
  - eexists _, _. split; [apply update_metadata_insert|].
    rewrite !props_of_insert, lookup_insert_eq, !dom_insert_L.
    repeat split; discriminate.
  - eexists _, _. split.
    + apply (import_metadata_run (L := plain_onnx) _ _ _ _ _
               scenario_model scenario_text); reflexivity.
    + unfold with_file. cbn [files]. rewrite lookup_insert_eq.
      split; [reflexivity|]. split; [reflexivity|].
      assert (H : files scenario_state !! "model.onnx"
                  = Some (ModelFile scenario_model)) by reflexivity.
      rewrite H. discriminate.
Qed.

(* ================================================================= *)
(** ** Reading the metadata file *)

Lemma split1_before_after c s :
  split1 c s
  = str_before c s :: match str_after c s with Some v => [v] | None => [] end.
Proof.
  induction s as [|a s IH]; simpl; [reflexivity|].
  destruct (Ascii.eqb a c); [reflexivity|]. now rewrite IH.
Qed.

Lemma str_after_contains c s :
  str_contains c s = match str_after c s with Some _ => true | None => false end.
Proof.
  induction s as [|a s IH]; simpl; [reflexivity|].
  now destruct (Ascii.eqb a c).
Qed.

(** One turn of the reading loop, in terms of the record of the line. *)
Lemma read_line_record st raw :
  read_line st raw
  = match record_of raw with
    | Some (k, v) =>
        {| metadata_dict := dict_setitem k v (metadata_dict st);
           skipped := skipped st |}
    | None =>
        if is_empty (rstrip LF raw) then st
        else {| metadata_dict := metadata_dict st;
                skipped := skipped st ++ [rstrip LF raw] |}
    end.
Proof.
  unfold read_line, record_of.
  destruct (rstrip LF raw) as [|a line] eqn:E; [reflexivity|].
  rewrite split1_before_after. cbn [is_empty].
  destruct (str_after TAB (String a line)); reflexivity.
Qed.

Lemma read_lines_dict lines : forall st,
  metadata_dict (fold_left read_line lines st)
  = fold_left set_record (records_of lines) (metadata_dict st).
Proof.
  induction lines as [|raw lines IH]; intros st; simpl; [reflexivity|].
  rewrite IH, read_line_record, fold_left_app.
  destruct (record_of raw) as [[k v]|]; simpl; [reflexivity|].
  now destruct (is_empty (rstrip LF raw)).
Qed.

Lemma read_lines_skipped lines : forall st,
  skipped (fold_left read_line lines st) = skipped st ++ malformed_of lines.
Proof.
  unfold malformed_of.
  induction lines as [|raw lines IH]; intros st; simpl;
    [now rewrite app_nil_r|].
  rewrite IH, read_line_record. unfold record_of.
  rewrite str_after_contains.
  destruct (is_empty (rstrip LF raw)); simpl; [reflexivity|].
  destruct (str_after TAB (rstrip LF raw)); simpl; [reflexivity|].
  now rewrite <- app_assoc.
Qed.

Lemma dict_keys_setitem {V} k (v : V) d :
  dict_keys (dict_setitem k v d)
  = if dict_contains k d then dict_keys d else dict_keys d ++ [k].
Proof.
  unfold dict_contains, dict_keys.
  induction d as [|[k' v'] d IH]; simpl; [reflexivity|].
  destruct (String.eqb k' k) eqn:E; simpl; [reflexivity|].
  rewrite IH. now destruct (existsb _ d).
Qed.

Lemma dict_get_setitem {V} k k' (v : V) d :
  dict_get k (dict_setitem k' v d)
  = if String.eqb k' k then Some v else dict_get k d.
Proof.
  induction d as [|[k0 v0] d IH]; simpl; [reflexivity|].
  destruct (String.eqb k0 k') eqn:E; simpl.
  - apply String.eqb_eq in E. subst k0. now destruct (String.eqb k' k).
  - rewrite IH. destruct (String.eqb k0 k) eqn:E0; [|reflexivity].
    apply String.eqb_eq in E0. subst k0. now rewrite String.eqb_sym, E.
Qed.

Lemma filter_filter_weaker {A} (f g : A -> bool) l :
  (forall x, f x = true -> g x = true) ->
  List.filter f (List.filter g l) = List.filter f l.
Proof.
  intros Hfg. induction l as [|a l IH]; simpl; [reflexivity|].
  destruct (g a) eqn:Eg; simpl.
  - now rewrite IH.
  - destruct (f a) eqn:Ef; [|assumption].
    apply Hfg in Ef. congruence.
Qed.

Lemma filter_filter_and {A} (f g : A -> bool) l :
  List.filter f (List.filter g l) = List.filter (fun x => g x && f x) l.
Proof.
  induction l as [|a l IH]; simpl; [reflexivity|].
  destruct (g a); simpl; [|assumption]. destruct (f a); now rewrite IH.
Qed.

Lemma dict_contains_snoc {V} (k x : string) (v : V) d :
  dict_contains x (dict_setitem k v d)
  = dict_contains x d || String.eqb k x.
Proof.
  unfold dict_contains.
  induction d as [|[k' v'] d IH]; simpl; [now rewrite orb_false_r|].
  destruct (String.eqb k' k) eqn:E; simpl.
  - apply String.eqb_eq in E. subst k'.
    destruct (String.eqb k x); simpl; [reflexivity | now rewrite orb_false_r].
  - rewrite IH. now rewrite orb_assoc.
Qed.

(** The keys after a run of assignments: those already there, then the new
    ones at their first occurrence. *)
Lemma fold_setitem_keys {V X} (kf : X -> string) (vf : pydict V -> X -> V) xs :
  forall d,
  dict_keys (fold_left (fun d x => dict_setitem (kf x) (vf d x) d) xs d)
  = dict_keys d
    ++ List.filter (fun k => negb (dict_contains k d))
         (first_occurrences (map kf xs)).
Proof.
  induction xs as [|x xs IH]; intros d; simpl;
    [now rewrite app_nil_r|].
  rewrite IH, dict_keys_setitem.
  destruct (dict_contains (kf x) d) eqn:E; cbn [negb].
  - f_equal. rewrite filter_filter_weaker.
    + apply filter_ext. intros k. rewrite dict_contains_snoc.
      destruct (String.eqb (kf x) k) eqn:Ex; [|now rewrite orb_false_r].
      apply String.eqb_eq in Ex. subst k. now rewrite E.
    + intros k Hk. destruct (String.eqb k (kf x)) eqn:Ex; [|reflexivity].
      apply String.eqb_eq in Ex. subst k. rewrite E in Hk. discriminate.
  - rewrite <- app_assoc. cbn [app]. do 2 f_equal.
    rewrite filter_filter_and. symmetry. apply filter_ext. intros k.
    rewrite dict_contains_snoc, negb_orb, (String.eqb_sym (kf x) k).
    apply andb_comm.
Qed.

Lemma fold_set_record_keys recs : forall d,
  dict_keys (fold_left set_record recs d)
  = dict_keys d
    ++ List.filter (fun k => negb (dict_contains k d))
         (first_occurrences (map fst recs)).
Proof. exact (fold_setitem_keys fst (fun _ kv => snd kv) recs). Qed.

Lemma fold_set_record_get k recs : forall d,
  dict_get k (fold_left set_record recs d)
  = match last_value k recs with
    | Some x => Some x
    | None => dict_get k d
    end.
Proof.
  induction recs as [|[k' v] recs IH]; intros d; simpl; [reflexivity|].
  rewrite IH. destruct (last_value k recs); [reflexivity|].
  unfold set_record. simpl. rewrite dict_get_setitem.
  now destruct (String.eqb k' k).
Qed.

Lemma NoDup_list_filter {A} (f : A -> bool) l :
  NoDup l -> NoDup (List.filter f l).
Proof.
  induction 1 as [|a l Ha Hl IH]; simpl; [constructor|].
  destruct (f a); [|assumption]. constructor; [|assumption].
  intros Hin. apply Ha. apply list_elem_of_In.
  apply list_elem_of_In, List.filter_In in Hin. tauto.
Qed.

Lemma first_occurrences_NoDup ks : NoDup (first_occurrences ks).
Proof.
  induction ks as [|k ks IH]; simpl; constructor.
  - intros Hin. apply list_elem_of_In, List.filter_In in Hin as [_ Hin].
    now rewrite String.eqb_refl in Hin.
  - now apply NoDup_list_filter.
Qed.

(** C4. Every line is stripped of its line feed; an empty line is passed
    over; a line without a tab is reported and passed over, and the lines
    after it are still read; the other lines are cut at their first tab.
    The dictionary has each key once, at the place of its first record and
    with the value of its last record. *)
Theorem parse_first_position_last_value (lines : list string) :
  let recs := records_of lines in
  dict_keys (parse_metadata lines) = first_occurrences (map fst recs)
  /\ (forall k, dict_get k (parse_metadata lines) = last_value k recs)
  /\ NoDup (dict_keys (parse_metadata lines))
  /\ skipped (read_lines lines) = malformed_of lines
  /\ parse_metadata ["a" +:+ String TAB "1"; "b" +:+ String TAB "2";
                     "a" +:+ String TAB "3"]
     = [("a", "3"); ("b", "2")].
Proof.
  intros recs. subst recs.
  assert (Hk : dict_keys (parse_metadata lines)
               = first_occurrences (map fst (records_of lines))).
  { unfold parse_metadata, read_lines.
    rewrite read_lines_dict, fold_set_record_keys. simpl.
    apply filter_all. apply List.Forall_forall. now intros. }
  split; [exact Hk|]. split; [|split; [|split]].
  - intros k. unfold parse_metadata, read_lines.
    rewrite read_lines_dict, fold_set_record_get. simpl.
    now destruct (last_value k (records_of lines)).
  - rewrite Hk. apply first_occurrences_NoDup.
  - unfold read_lines. now rewrite read_lines_skipped.
  - reflexivity.
Qed.

(* ================================================================= *)
(** ** The keys of the list that an import writes *)

Lemma parse_metadata_keys_distinct lines :
  NoDup (dict_keys (parse_metadata lines)).
Proof.
  assert (Hk : dict_keys (parse_metadata lines)
               = first_occurrences (map fst (records_of lines))).
  { unfold parse_metadata, read_lines.
    rewrite read_lines_dict, fold_set_record_keys. simpl.
    apply filter_all. apply List.Forall_forall. now intros. }
  rewrite Hk. apply first_occurrences_NoDup.
Qed.

(** What a run of [import_metadata] that ends with code 0 has done. *)
Lemma import_metadata_done {L : Onnx} mp mf op mode st rep st' :
  import_metadata mp mf op mode st = (0%Z, rep, st') ->
  exists doc content,
    read_model mp st = Some doc
    /\ check_model doc = true
    /\ read_text mf st = Some content
    /\ writable op st = true.
Proof.
  intros Hrun.
  destruct (read_text mf st) as [content|] eqn:Ht;
    [|rewrite import_metadata_refused in Hrun by (now left); discriminate].
  destruct (checker_check_model mp st) eqn:Hc;
    [|rewrite import_metadata_refused in Hrun by (now right); discriminate].
  unfold checker_check_model in Hc.
  destruct (read_model mp st) as [doc|] eqn:Hm; [|discriminate].
  destruct (writable op st) eqn:Hw.
  - now exists doc, content.
  - destruct (import_metadata_not_saved mp mf op mode st doc content
                Hm Hc Ht Hw) as [h Hh].
    rewrite Hh in Hrun. discriminate.
Qed.

(** C2. Whatever the model file, the metadata file and the mode, the list
    that a run of [import_metadata] produces has no two entries with the
    same key: the run that ends with code 0 has loaded a model that the
    checker accepted, so with distinct keys, has rewritten its list to the
    one the mode prescribes for the mapping read from the file, and that
    list, which is the list of the model written to [output_path], has
    pairwise distinct keys. (A model file with repeated keys is refused by
    the checker before the transform: see [repeated_keys_are_refused].) *)
Theorem imported_keys_are_distinct {L : Onnx}
    (model_path metadata_file output_path : string) (mode : Mode)
    (st : State) (rep : option Report) (st' : State) :
  import_metadata model_path metadata_file output_path mode st
  = (0%Z, rep, st') ->
  exists doc content result,
    read_model model_path st = Some doc
    /\ read_text metadata_file st = Some content
    /\ result
       = expected_props mode
           (parse_metadata (iter_lines (universal_newlines content)))
           (metadata_props doc)
    /\ props_of (fresh (dom (heap st))) (heap st') = result
    /\ files st' !! output_path
       = Some (ModelFile (with_metadata_props doc result))
    /\ NoDup (map key result).
Proof.
  intros Hrun.
  destruct (import_metadata_done _ _ _ _ _ _ _ Hrun)
    as (doc & content & Hm & Hc & Ht & Hw).
  rewrite (import_metadata_run _ _ _ _ _ doc content Hm Hc Ht Hw) in Hrun.
  injection Hrun as _ <-.
  exists doc, content. eexists. split; [assumption|]. split; [assumption|].
  split; [reflexivity|].
  unfold with_file, with_heap. cbn [heap files].
  rewrite props_of_insert, lookup_insert_eq.
  split; [reflexivity|]. split; [reflexivity|].
  apply expected_keys_unique_iff; [apply parse_metadata_keys_distinct|].
  right. apply NoDup_filter_keys. now apply check_model_keys.
Qed.

Lemma imported_keys_are_distinct_witness :
  let result := [MkProp "x" "1"; MkProp "y" "9"; MkProp "z" "5"] in
  exists rep st',
    import_metadata (L := plain_onnx)
      "model.onnx" "meta.txt" "out.onnx" Merge scenario_state
    = (0%Z, rep, st')
    /\ exists doc content result',
         read_model (L := plain_onnx) "model.onnx" scenario_state = Some doc
         /\ read_text (L := plain_onnx) "meta.txt" scenario_state = Some content
         /\ result'
            = expected_props Merge
                (parse_metadata (iter_lines (universal_newlines content)))
                (metadata_props doc)
         /\ props_of (fresh (dom (heap scenario_state))) (heap st') = result'
         /\ files st' !! "out.onnx"
            = Some (ModelFile (with_metadata_props doc result'))
         /\ NoDup (map key result').
Proof.
  intros result. eexists _, _.
  assert (Hrun : import_metadata (L := plain_onnx)
                   "model.onnx" "meta.txt" "out.onnx" Merge scenario_state
                 = (0%Z, Some (MergeReport 2 1 2 1),
                    with_file
                      (with_heap scenario_state
                         (<[fresh (dom (heap scenario_state)) :=
                              with_metadata_props scenario_model result]>
                            (heap scenario_state)))
                      "out.onnx"
                      (ModelFile (with_metadata_props scenario_model result))))
    by reflexivity.
  split; [exact Hrun|].
  exact (imported_keys_are_distinct (L := plain_onnx) _ _ _ _ _ _ _ Hrun).
Defined.

(** A model file in which two entries share a key never reaches the
    transform: the checker refuses it, the call ends with code 1, prints no
    report and changes nothing. *)
Lemma repeated_keys_are_refused {L : Onnx} mp mf op mode st doc :
  read_model mp st = Some doc ->
  ~ NoDup (map key (metadata_props doc)) ->
  import_metadata mp mf op mode st = (1%Z, None, st).
Proof.
  intros Hm Hk. apply import_metadata_refused. right.
  unfold checker_check_model. rewrite Hm.
  now apply check_model_repeated_keys.
Qed.

Example repeated_keys_example :
  import_metadata (L := plain_onnx) "m.onnx" "meta.txt" "out.onnx" Merge
    {| files := {["m.onnx" :=
                    ModelFile (blank_model [MkProp "a" "1"; MkProp "a" "2"]);
                  "meta.txt" := TextFile ("b" +:+ String TAB "3")]};
       unwritable := ∅; heap := ∅ |}
  = (1%Z, None,
     {| files := {["m.onnx" :=
                     ModelFile (blank_model [MkProp "a" "1"; MkProp "a" "2"]);
                   "meta.txt" := TextFile ("b" +:+ String TAB "3")]};
        unwritable := ∅; heap := ∅ |}).
Proof. reflexivity. Qed.

(* ================================================================= *)
(** ** Export followed by import *)

(** Appending to a text that starts with a character unfolds under [simpl]. *)
#[local] Arguments String.append !_ _ : simpl nomatch.

Lemma append_assoc (a b c : string) : (a +:+ b) +:+ c = a +:+ (b +:+ c).
Proof. induction a as [|x a IH]; simpl; [reflexivity | now f_equal]. Qed.

Lemma append_empty_r (a : string) : a +:+ "" = a.
Proof. induction a as [|x a IH]; simpl; [reflexivity | now f_equal]. Qed.

Lemma str_contains_append c a b :
  str_contains c (a +:+ b) = str_contains c a || str_contains c b.
Proof.
  induction a as [|x a IH]; simpl; [reflexivity|].
  rewrite IH. now rewrite orb_assoc.
Qed.

Lemma export_text_concat props :
  export_text props = concat_lines (map record_line props).
Proof.
  assert (H : forall acc,
             fold_left (fun content p => file_write content (record_line p)) props acc
             = acc +:+ concat_lines (map record_line props)).
  { induction props as [|p ps IH]; intros acc; simpl.
    - now rewrite append_empty_r.
    - rewrite IH. unfold file_write. apply append_assoc. }
  destruct props as [|p ps]; [reflexivity|].
  unfold export_text. now rewrite H.
Qed.

Lemma universal_newlines_id s :
  str_contains CR s = false -> universal_newlines s = s.
Proof.
  induction s as [|a s IH]; simpl; [reflexivity|].
  intros H. apply orb_false_iff in H as [Ha Hs].
  rewrite Ha. now rewrite IH.
Qed.

Lemma iter_lines_first body rest :
  str_contains LF body = false ->
  iter_lines (body +:+ String LF rest)
  = (body +:+ String LF "") :: iter_lines rest.
Proof.
  induction body as [|a b IH]; simpl; [reflexivity|].
  intros H. apply orb_false_iff in H as [Ha Hb].
  rewrite Ha, IH by assumption. reflexivity.
Qed.

Lemma rstrip_line_feed s : rstrip LF (s +:+ String LF "") = rstrip LF s.
Proof.
  induction s as [|a s IH]; simpl; [reflexivity|]. now rewrite IH.
Qed.

Lemma rstrip_absent c s : str_contains c s = false -> rstrip c s = s.
Proof.
  induction s as [|a s IH]; simpl; [reflexivity|].
  intros H. apply orb_false_iff in H as [Ha Hs].
  rewrite IH by assumption. destruct s; [now rewrite Ha | reflexivity].
Qed.

Lemma str_before_append c k v :
  str_contains c k = false -> str_before c (k +:+ String c v) = k.
Proof.
  induction k as [|a k IH]; simpl.
  - now rewrite Ascii.eqb_refl.
  - intros H. apply orb_false_iff in H as [Ha Hk]. now rewrite Ha, IH.
Qed.

Lemma str_after_append c k v :
  str_contains c k = false -> str_after c (k +:+ String c v) = Some v.
Proof.
  induction k as [|a k IH]; simpl.
  - now rewrite Ascii.eqb_refl.
  - intros H. apply orb_false_iff in H as [Ha Hk]. now rewrite Ha, IH.
Qed.

Section Exportable.
Variable p : StringStringEntryProto.
Hypothesis Hp : exportable p = true.

Lemma exportable_parts :
  str_contains TAB (key p) = false /\ str_contains LF (key p) = false
  /\ str_contains CR (key p) = false /\ str_contains LF (value p) = false
  /\ str_contains CR (value p) = false.
Proof.
  unfold exportable in Hp.
  repeat (apply andb_true_iff in Hp as [Hp ?]).
  repeat split; now apply negb_true_iff.
Qed.

Lemma record_line_body :
  record_line p = (key p +:+ String TAB (value p)) +:+ String LF "".
Proof. unfold record_line. now rewrite append_assoc. Qed.

Lemma record_body_no_line_feed :
  str_contains LF (key p +:+ String TAB (value p)) = false.
Proof.
  destruct exportable_parts as (_ & Hk & _ & Hv & _).
  rewrite str_contains_append. simpl. now rewrite Hk, Hv.
Qed.

Lemma record_line_no_carriage_return :
  str_contains CR (record_line p) = false.
Proof.
  destruct exportable_parts as (_ & _ & Hk & _ & Hv).
  unfold record_line.
  rewrite str_contains_append. simpl.
  rewrite str_contains_append. simpl. now rewrite Hk, Hv.
Qed.

Lemma record_of_record_line :
  record_of (record_line p) = Some (key p, value p).
Proof.
  destruct exportable_parts as (Ht & _).
  unfold record_of.
  rewrite record_line_body, rstrip_line_feed,
    (rstrip_absent _ _ record_body_no_line_feed).
  rewrite str_before_append, str_after_append by assumption.
  destruct (key p); reflexivity.
Qed.
End Exportable.

Lemma exported_lines_read_back props :
  Forall (fun p => exportable p = true) props ->
  iter_lines (universal_newlines (export_text props)) = map record_line props.
Proof.
  intros H. rewrite export_text_concat.
  rewrite universal_newlines_id.
  - induction H as [|p ps Hp _ IH]; simpl; [reflexivity|].
    rewrite (record_line_body p), append_assoc. simpl.
    rewrite iter_lines_first by now apply record_body_no_line_feed.
    now rewrite IH.
  - induction H as [|p ps Hp _ IH]; simpl; [reflexivity|].
    rewrite str_contains_append, IH.
    now rewrite record_line_no_carriage_return.
Qed.

Lemma records_of_exported props :
  Forall (fun p => exportable p = true) props ->
  records_of (map record_line props) = map (fun p => (key p, value p)) props.
Proof.
  induction 1 as [|p ps Hp _ IH]; simpl; [reflexivity|].
  now rewrite record_of_record_line, IH.
Qed.

Lemma dict_setitem_new {V} k (v : V) d :
  dict_contains k d = false -> dict_setitem k v d = d ++ [(k, v)].
Proof.
  unfold dict_contains.
  induction d as [|[k' v'] d IH]; simpl; [reflexivity|].
  intros H. apply orb_false_iff in H as [Hk Hd]. rewrite Hk. now rewrite IH.
Qed.

Lemma dict_contains_app {V} k (d e : pydict V) :
  dict_contains k (d ++ e) = dict_contains k d || dict_contains k e.
Proof. unfold dict_contains. apply existsb_app. Qed.

Lemma fold_set_record_distinct recs : forall d,
  NoDup (map fst recs) ->
  Forall (fun kv => dict_contains (fst kv) d = false) recs ->
  fold_left set_record recs d = d ++ recs.
Proof.
  induction recs as [|[k v] recs IH]; intros d Hnd Hd; simpl;
    [now rewrite app_nil_r|].
  simpl in Hnd. apply NoDup_cons in Hnd as [Hk Hnd].
  apply Forall_cons in Hd as [Hkd Hd]. simpl in Hkd.
  unfold set_record at 2. simpl. rewrite dict_setitem_new by assumption.
  rewrite IH; [now rewrite <- app_assoc | assumption |].
  apply List.Forall_forall. intros [k' v'] Hin. simpl.
  rewrite dict_contains_app.
  rewrite List.Forall_forall in Hd. pose proof (Hd _ Hin) as Hx.
  simpl in Hx. rewrite Hx. unfold dict_contains. simpl.
  rewrite orb_false_r. apply String.eqb_neq. intros ->.
  apply Hk. apply list_elem_of_In.
  change k' with (fst (k', v')). now apply in_map.
Qed.

Lemma parse_exported props :
  NoDup (map key props) ->
  Forall (fun p => exportable p = true) props ->
  map entry_of (parse_metadata (iter_lines (universal_newlines (export_text props))))
  = props.
Proof.
  intros Hnd Hex. rewrite exported_lines_read_back by assumption.
  unfold parse_metadata, read_lines.
  rewrite read_lines_dict, records_of_exported by assumption. simpl.
  rewrite fold_set_record_distinct.
  - simpl. rewrite map_map. unfold entry_of. simpl.
    induction props as [|[k v] ps IH]; simpl; [reflexivity|].
    f_equal. apply IH.
    + simpl in Hnd. now apply NoDup_cons in Hnd.
    + now apply Forall_cons in Hex.
  - now rewrite map_map.
  - apply List.Forall_forall. reflexivity.
Qed.

(** The run of [export_metadata] when the model file is accepted by the
    checker and the output can be written. *)
Lemma export_metadata_run {L : Onnx} src txt st doc :
  read_model src st = Some doc ->
  check_model doc = true ->
  writable txt st = true ->
  export_metadata src txt st
  = (0%Z,
     with_file (with_heap st (<[fresh (dom (heap st)) := doc]> (heap st)))
       txt (TextFile (export_text (metadata_props doc)))).
Proof.
  intros Hm Hc Hw. unfold export_metadata, checker_check_model, onnx_load.
  rewrite Hm, Hc. cbn [heap with_heap]. rewrite props_of_insert.
  unfold write_text, writable in *. cbn [with_heap unwritable]. now rewrite Hw.
Qed.

(** C10, as the code has it. When the model is one the checker accepts, so
    that its keys are pairwise distinct, the keys hold no tab, and neither
    keys nor values hold a line feed or a carriage return, exporting the
    metadata to a file other than the target model and importing that file
    into the target model in replace mode writes a model whose metadata list
    is the original one, entry for entry and in order. *)
Theorem export_then_replace_restores {L : Onnx} (st : State)
    (src txt target out : string) (doc other : ModelProto) :
  read_model src st = Some doc ->
  check_model doc = true ->
  read_model target st = Some other ->
  check_model other = true ->
  txt <> target ->
  writable txt st = true ->
  writable out st = true ->
  Forall (fun p => exportable p = true) (metadata_props doc) ->
  exists st1 rep st2,
    export_metadata src txt st = (0%Z, st1)
    /\ import_metadata target txt out Replace st1 = (0%Z, Some rep, st2)
    /\ files st2 !! out
       = Some (ModelFile (with_metadata_props other (metadata_props doc))).
Proof.
  intros Hsrc Hc Htgt Hc' Hne Hw Hw' Hex. eexists _, _, _.
  split; [apply (export_metadata_run _ _ _ doc Hsrc Hc Hw)|].
  split.
  - apply (import_metadata_run _ _ _ _ _ other
             (export_text (metadata_props doc))).
    + rewrite read_model_with_file_ne by congruence. exact Htgt.
    + exact Hc'.
    + apply read_text_written.
    + exact Hw'.
  - unfold with_file. cbn [files]. rewrite lookup_insert_eq.
    cbn [expected_props]. do 3 f_equal.
    apply parse_exported; [now apply check_model_keys | assumption].
Qed.

Lemma export_then_replace_restores_witness :
  let props := [MkProp "a" "1"; MkProp "b" ("x" +:+ String TAB "y")] in
  let other := blank_model [MkProp "old" "0"] in
  read_model (L := plain_onnx) "source.onnx" (roundtrip_state props)
  = Some (blank_model props)
  /\ check_model (L := plain_onnx) (blank_model props) = true
  /\ read_model (L := plain_onnx) "target.onnx" (roundtrip_state props)
     = Some other
  /\ check_model (L := plain_onnx) other = true
  /\ "meta.txt" <> "target.onnx"
  /\ writable "meta.txt" (roundtrip_state props) = true
  /\ writable "out.onnx" (roundtrip_state props) = true
  /\ Forall (fun p => exportable p = true) props
  /\ exists st1 rep st2,
       export_metadata (L := plain_onnx)
         "source.onnx" "meta.txt" (roundtrip_state props)
       = (0%Z, st1)
       /\ import_metadata (L := plain_onnx)
            "target.onnx" "meta.txt" "out.onnx" Replace st1
          = (0%Z, Some rep, st2)
       /\ files st2 !! "out.onnx"
          = Some (ModelFile (with_metadata_props other props)).
Proof.
  intros props other.
  assert (H1 : read_model (L := plain_onnx) "source.onnx" (roundtrip_state props)
               = Some (blank_model props)) by reflexivity.
  assert (H2 : check_model (L := plain_onnx) (blank_model props) = true)
    by reflexivity.
  assert (H3 : read_model (L := plain_onnx) "target.onnx" (roundtrip_state props)
               = Some other) by reflexivity.
  assert (H4 : check_model (L := plain_onnx) other = true) by reflexivity.
  assert (H5 : "meta.txt" <> "target.onnx") by discriminate.
  assert (H6 : writable "meta.txt" (roundtrip_state props) = true)
    by reflexivity.
  assert (H7 : writable "out.onnx" (roundtrip_state props) = true)
    by reflexivity.
  assert (H8 : Forall (fun p => exportable p = true) props).
  { repeat constructor. }
  repeat (split; [assumption|]).
  exact (export_then_replace_restores (L := plain_onnx) (roundtrip_state props)
           "source.onnx" "meta.txt" "target.onnx" "out.onnx"
           (blank_model props) other H1 H2 H3 H4 H5 H6 H7 H8).
Defined.

(** C10 fails as stated. A value with a carriage return has no line feed,
    yet the reader of the metadata file treats the carriage return as the
    end of a line: the entry [(k, a<CR>b)] comes back as [(k, a)], and the
    rest of the value is a line without a tab, which is skipped. *)
Lemma carriage_return_breaks_roundtrip :
  let props := [MkProp "k" ("a" +:+ String CR "b")] in
  let other := blank_model [MkProp "old" "0"] in
  NoDup (map key props)
  /\ forallb exportable_lf_only props = true
  /\ exists st1 rep st2,
       export_metadata (L := plain_onnx)
         "source.onnx" "meta.txt" (roundtrip_state props)
       = (0%Z, st1)
       /\ import_metadata (L := plain_onnx)
            "target.onnx" "meta.txt" "out.onnx" Replace st1
          = (0%Z, Some rep, st2)
       /\ files st2 !! "out.onnx"
          = Some (ModelFile (with_metadata_props other [MkProp "k" "a"]))
       /\ files st2 !! "out.onnx"
          <> Some (ModelFile (with_metadata_props other props)).
Proof.
  intros props other. split; [apply NoDup_singleton|]. split; [reflexivity|].
  eexists _, _, _.
  split; [apply (export_metadata_run (L := plain_onnx) _ _ _ (blank_model props));
          reflexivity|].
  split.
  - apply (import_metadata_run (L := plain_onnx) _ _ _ _ _ other
             (export_text props)); reflexivity.
  - unfold with_file. cbn [files]. rewrite lookup_insert_eq.
    split; [reflexivity|]. discriminate.
Qed.

(* ================================================================= *)
(** ** The stable sort *)

Section StableSort.
Context {A : Type} (before : A -> A -> bool) (key : A -> Z).

Abbreviation precedes := (may_precede before).
Abbreviation keyed := (has_key key).

Hypothesis before_asym : forall y x, before y x = true -> before x y = false.
Hypothesis precedes_trans :
  forall a b c, precedes a b -> precedes b c -> precedes a c.
Hypothesis before_key : forall y x, before y x = true -> key y <> key x.
Hypothesis tie_key :
  forall a b, precedes a b -> precedes b a -> key a = key b.

Lemma insert_stable_perm x l : Permutation (insert_stable before x l) (x :: l).
Proof.
  induction l as [|y l IH]; simpl; [reflexivity|].
  destruct (before y x); [|reflexivity].
  rewrite IH. apply perm_swap.
Qed.

Lemma sort_stable_perm l : Permutation (sort_stable before l) l.
Proof.
  induction l as [|x l IH]; simpl; [reflexivity|].
  rewrite insert_stable_perm. now constructor.
Qed.

Lemma insert_stable_sorted x l :
  StronglySorted precedes l ->
  StronglySorted precedes (insert_stable before x l).
Proof.
  induction 1 as [|y l Hl IH Hy]; simpl; [repeat constructor|].
  destruct (before y x) eqn:E.
  - constructor; [assumption|].
    eapply Permutation_Forall; [symmetry; apply insert_stable_perm|].
    constructor; [|assumption]. now apply before_asym.
  - constructor; [now constructor|].
    constructor; [exact E|].
    eapply List.Forall_impl; [|exact Hy].
    intros z Hz. now apply (precedes_trans x y z).
Qed.

Lemma sort_stable_sorted l : StronglySorted precedes (sort_stable before l).
Proof.
  induction l as [|x l IH]; simpl; [constructor|].
  now apply insert_stable_sorted.
Qed.

Lemma insert_stable_filter c x l :
  List.filter (keyed c) (insert_stable before x l)
  = List.filter (keyed c) (x :: l).
Proof.
  induction l as [|y l IH]; simpl; [reflexivity|].
  destruct (before y x) eqn:E; [|reflexivity].
  simpl. rewrite IH. simpl.
  apply before_key in E. unfold has_key.
  destruct (key x =? c)%Z eqn:Ex, (key y =? c)%Z eqn:Ey; try reflexivity.
  apply Z.eqb_eq in Ex, Ey. congruence.
Qed.

(** Elements with the same key keep their order. *)
Lemma sort_stable_filter c l :
  List.filter (keyed c) (sort_stable before l) = List.filter (keyed c) l.
Proof.
  induction l as [|x l IH]; simpl; [reflexivity|].
  rewrite insert_stable_filter. simpl. now rewrite IH.
Qed.

Lemma filter_has_key_head c a l r :
  List.filter (keyed c) l = a :: r -> In a l /\ key a = c.
Proof.
  intros H.
  assert (Ha : In a (List.filter (keyed c) l)) by (rewrite H; now left).
  apply List.filter_In in Ha as [Ha Hk]. split; [assumption|].
  now apply Z.eqb_eq.
Qed.

Lemma filter_has_key_cons a l :
  List.filter (keyed (key a)) (a :: l)
  = a :: List.filter (keyed (key a)) l.
Proof. simpl. unfold has_key at 1. now rewrite Z.eqb_refl. Qed.

(** Two sorted lists in which the elements of each key are the same, in
    the same order, are equal. *)
Lemma sorted_same_classes_eq l1 : forall l2,
  StronglySorted precedes l1 -> StronglySorted precedes l2 ->
  (forall c, List.filter (keyed c) l1 = List.filter (keyed c) l2) ->
  l1 = l2.
Proof.
  induction l1 as [|a l1 IH]; intros l2 H1 H2 Hc.
  - destruct l2 as [|b l2]; [reflexivity|].
    specialize (Hc (key b)). rewrite filter_has_key_cons in Hc.
    discriminate.
  - destruct l2 as [|b l2].
    { specialize (Hc (key a)). rewrite filter_has_key_cons in Hc.
      discriminate. }
    apply StronglySorted_inv in H1 as [H1 Ha].
    apply StronglySorted_inv in H2 as [H2 Hb].
    rewrite List.Forall_forall in Ha, Hb.
    assert (Hab : key a = key b).
    { pose proof (Hc (key a)) as Hca. pose proof (Hc (key b)) as Hcb.
      rewrite filter_has_key_cons in Hca, Hcb.
      symmetry in Hca. apply filter_has_key_head in Hca as [[Hca|Hca] _];
        [now subst|].
      apply filter_has_key_head in Hcb as [[Hcb|Hcb] _]; [now subst|].
      apply tie_key; [now apply Ha | now apply Hb]. }
    assert (a = b).
    { specialize (Hc (key a)). rewrite filter_has_key_cons in Hc.
      rewrite Hab, filter_has_key_cons in Hc. congruence. }
    subst b. f_equal. apply IH; try assumption.
    intros c. specialize (Hc c). simpl in Hc.
    destruct (keyed c a); congruence.
Qed.

(** The result of a stable sort does not depend on the algorithm. *)
Lemma stable_sort_unique l l' :
  StronglySorted precedes l' ->
  (forall c, List.filter (keyed c) l' = List.filter (keyed c) l) ->
  l' = sort_stable before l.
Proof.
  intros Hs Hc. apply sorted_same_classes_eq; [assumption | |].
  - apply sort_stable_sorted.
  - intros c. rewrite Hc. symmetry. apply sort_stable_filter.
Qed.
End StableSort.

(* ================================================================= *)
(** ** Sorting by an integer key *)

Section SortedByKey.
Context {A : Type} (key : A -> Z) (reverse : bool).

Abbreviation key_before :=
  (fun y x : A => if reverse then (key x <? key y)%Z else (key y <? key x)%Z).

Lemma key_before_asym y x : key_before y x = true -> key_before x y = false.
Proof. destruct reverse; lia. Qed.

Lemma key_precedes_trans a b c :
  may_precede key_before a b -> may_precede key_before b c ->
  may_precede key_before a c.
Proof. unfold may_precede. destruct reverse; lia. Qed.

Lemma key_before_key y x : key_before y x = true -> key y <> key x.
Proof. destruct reverse; lia. Qed.

Lemma key_tie a b :
  may_precede key_before a b -> may_precede key_before b a -> key a = key b.
Proof. unfold may_precede. destruct reverse; lia. Qed.

Lemma sorted_by_key_perm l : Permutation (sorted_by_key key reverse l) l.
Proof. apply sort_stable_perm. Qed.

Lemma sorted_by_key_sorted l :
  StronglySorted (may_precede key_before) (sorted_by_key key reverse l).
Proof.
  apply sort_stable_sorted; [apply key_before_asym | apply key_precedes_trans].
Qed.

Lemma sorted_by_key_stable c l :
  List.filter (has_key key c) (sorted_by_key key reverse l)
  = List.filter (has_key key c) l.
Proof. apply sort_stable_filter, key_before_key. Qed.

(** Any list that is sorted by the key and keeps the elements of each key
    in their original order is the one computed here. *)
Lemma sorted_by_key_unique l l' :
  StronglySorted (may_precede key_before) l' ->
  (forall c, List.filter (has_key key c) l' = List.filter (has_key key c) l) ->
  l' = sorted_by_key key reverse l.
Proof.
  apply stable_sort_unique.
  - apply key_before_asym.
  - apply key_precedes_trans.
  - apply key_before_key.
  - apply key_tie.
Qed.
End SortedByKey.

(** Sorting on the negated key is sorting in reverse on the key. *)
Lemma sorted_negated_key {A} (key : A -> Z) l :
  sorted_by_key (fun x => (- key x)%Z) false l = sorted_by_key key true l.
Proof.
  unfold sorted_by_key. induction l as [|x l IH]; simpl; [reflexivity|].
  rewrite IH. generalize (sort_stable (fun y x0 => (key x0 <? key y)%Z) l).
  intros s. induction s as [|y s IHs]; simpl; [reflexivity|].
  rewrite IHs.
  replace (- key y <? - key x)%Z with (key x <? key y)%Z; [reflexivity|].
  destruct (key x <? key y)%Z eqn:E; symmetry; lia.
Qed.

(* ================================================================= *)
(** ** The operator histogram *)

Lemma occurrences_cons k o ops :
  occurrences k (o :: ops)
  = ((if String.eqb k o then 1 else 0) + occurrences k ops)%Z.
Proof.
  unfold occurrences. simpl. destruct (String.eqb k o); simpl; lia.
Qed.

Lemma occurrences_nonneg k ops : (0 <= occurrences k ops)%Z.
Proof. unfold occurrences. lia. Qed.

Lemma occurrences_pos k ops : In k ops -> (0 < occurrences k ops)%Z.
Proof.
  intros H. unfold occurrences.
  assert (Hin : In k (List.filter (String.eqb k) ops)).
  { apply List.filter_In. split; [assumption | apply String.eqb_refl]. }
  destruct (List.filter (String.eqb k) ops); [destruct Hin | simpl; lia].
Qed.

Lemma fold_count_get k ops : forall c,
  dict_get k (fold_left count_element ops c)
  = if (occurrences k ops =? 0)%Z then dict_get k c
    else Some (match dict_get k c with Some n => n | None => 0 end
               + occurrences k ops)%Z.
Proof.
  induction ops as [|o ops IH]; intros c; [reflexivity|].
  cbn [fold_left]. rewrite IH, occurrences_cons.
  unfold count_element at 1 2. rewrite dict_get_setitem.
  pose proof (occurrences_nonneg k ops) as Hn.
  destruct (String.eqb o k) eqn:E.
  - apply String.eqb_eq in E. subst o. rewrite String.eqb_refl.
    destruct (occurrences k ops =? 0)%Z eqn:E0;
      destruct (1 + occurrences k ops =? 0)%Z eqn:E1; try lia; f_equal; lia.
  - rewrite String.eqb_sym, E. reflexivity.
Qed.

Lemma first_occurrences_In k ks : In k (first_occurrences ks) -> In k ks.
Proof.
  induction ks as [|a ks IH]; simpl; [tauto|].
  intros [H|H]; [now left|]. right. apply IH.
  now apply List.filter_In in H.
Qed.

(** A dictionary is fixed by its keys and the value of each. *)
Lemma dict_items_by_keys {V} (f : string -> V) (d : pydict V) :
  NoDup (dict_keys d) ->
  (forall k, In k (dict_keys d) -> dict_get k d = Some (f k)) ->
  d = map (fun k => (k, f k)) (dict_keys d).
Proof.
  unfold dict_keys.
  induction d as [|[k v] d IH]; simpl; intros Hnd Hget; [reflexivity|].
  apply NoDup_cons in Hnd as [Hk Hnd].
  pose proof (Hget k (or_introl eq_refl)) as Hv.
  rewrite String.eqb_refl in Hv. injection Hv as ->.
  f_equal. apply IH; [assumption|].
  intros k' Hk'. specialize (Hget k' (or_intror Hk')).
  destruct (String.eqb k k') eqn:E; [|assumption].
  apply String.eqb_eq in E. subst k'. exfalso. apply Hk.
  now apply list_elem_of_In.
Qed.

(** The counter lists every operator type once, at its first occurrence,
    with its number of occurrences. *)
Lemma Counter_items ops :
  Counter ops = map (fun k => (k, occurrences k ops)) (first_occurrences ops).
Proof.
  assert (Hk : dict_keys (Counter ops) = first_occurrences ops).
  { unfold Counter, count_element.
    rewrite (fold_setitem_keys (fun k : string => k)
               (fun c k => (match dict_get k c with Some n => n | None => 0 end + 1)%Z)).
    simpl. rewrite map_id. apply filter_all.
    apply List.Forall_forall. now intros. }
  rewrite <- Hk. apply dict_items_by_keys.
  - rewrite Hk. apply first_occurrences_NoDup.
  - intros k Hin. rewrite Hk in Hin. apply first_occurrences_In in Hin.
    apply occurrences_pos in Hin. unfold Counter. rewrite fold_count_get.
    simpl. destruct (occurrences k ops =? 0)%Z eqn:E; [lia | reflexivity].
Qed.

Lemma StronglySorted_weaken {A} (R R' : A -> A -> Prop) l :
  (forall a b, R a b -> R' a b) -> StronglySorted R l -> StronglySorted R' l.
Proof.
  intros HR. induction 1 as [|a l Hl IH Ha]; constructor; [assumption|].
  eapply List.Forall_impl; [|exact Ha]. intros b. apply HR.
Qed.

(** C6, as the code has it. The listing has every operator type once with
    its number of occurrences, in descending order of count; rows with equal
    counts stand in the order in which their operator types first occur in
    [graph.node], for the sort is stable and nothing compares names. Both
    tools list the same rows. *)
Theorem histogram_descending_ties_first_seen (g : GraphProto) :
  let ops := map op_type (node g) in
  let counts := map (fun k => (k, occurrences k ops)) (first_occurrences ops) in
  Permutation (op_histogram g) counts
  /\ StronglySorted count_ge (op_histogram g)
  /\ (forall c, List.filter (has_key snd c) (op_histogram g)
                = List.filter (has_key snd c) counts)
  /\ op_statistics g = op_histogram g
  /\ op_histogram
       (graph_of_ops ["Conv"; "Relu"; "Conv"; "Add"; "Relu"; "Conv"])
     = [("Conv", 3%Z); ("Relu", 2%Z); ("Add", 1%Z)].
Proof.
  intros ops counts. unfold op_histogram, op_statistics, most_common.
  fold ops. rewrite (Counter_items ops). fold counts.
  split; [apply sorted_by_key_perm|].
  split.
  - eapply StronglySorted_weaken; [|apply sorted_by_key_sorted].
    intros a b H. unfold may_precede in H. unfold count_ge. lia.
  - split; [intros c; apply sorted_by_key_stable|].
    split; [apply sorted_negated_key | reflexivity].
Qed.

(** C6 fails as stated. Two operator types with one node each are listed in
    the order of the nodes, not in lexical order, and the same multiset of
    operator types in another order gives another listing. *)
Lemma tie_order_is_not_lexical :
  op_histogram (graph_of_ops ["Relu"; "Add"]) = [("Relu", 1%Z); ("Add", 1%Z)]
  /\ spec_ordered (op_histogram (graph_of_ops ["Relu"; "Add"])) = false
  /\ Permutation ["Relu"; "Add"] ["Add"; "Relu"]
  /\ op_histogram (graph_of_ops ["Add"; "Relu"])
     <> op_histogram (graph_of_ops ["Relu"; "Add"]).
Proof.
  split; [reflexivity|]. split; [reflexivity|].
  split; [apply perm_swap | discriminate].
Qed.

(* ================================================================= *)
(** ** The parameter count *)

Lemma fold_left_add (l : list Z) : forall a,
  fold_left Z.add l a = (a + sum_list l)%Z.
Proof.
  induction l as [|x l IH]; intros a; simpl; [lia|]. rewrite IH. lia.
Qed.

Lemma wrap64_mul_l (a d : Z) : wrap64 (wrap64 a * d) = wrap64 (a * d).
Proof.
  unfold wrap64.
  assert (Ha : (a + 2 ^ 63
                = 2 ^ 64 * ((a + 2 ^ 63) / 2 ^ 64) + (a + 2 ^ 63) mod 2 ^ 64)%Z)
    by (apply Z.div_mod; lia).
  set (k := ((a + 2 ^ 63) / 2 ^ 64)%Z) in *.
  set (r := ((a + 2 ^ 63) mod 2 ^ 64)%Z) in *.
  replace (a * d + 2 ^ 63)%Z
    with ((r - 2 ^ 63) * d + 2 ^ 63 + k * d * 2 ^ 64)%Z by nia.
  now rewrite Z_mod_plus_full.
Qed.

Lemma wrap64_small (z : Z) : (- 2 ^ 63 <= z < 2 ^ 63)%Z -> wrap64 z = z.
Proof. intros H. unfold wrap64. rewrite Z.mod_small; lia. Qed.

(** The int64 product is the exact product, wrapped. *)
Lemma np_prod_wrap (ds : list Z) : np_prod ds = wrap64 (product ds).
Proof.
  unfold np_prod.
  assert (H : forall acc,
             fold_left (fun acc d => wrap64 (acc * d)) ds (wrap64 acc)
             = wrap64 (acc * product ds)).
  { induction ds as [|d ds IH]; intros acc; simpl.
    - now rewrite Z.mul_1_r.
    - rewrite wrap64_mul_l, IH. f_equal. lia. }
  specialize (H 1%Z). rewrite (wrap64_small 1) in H by lia.
  rewrite H. f_equal. lia.
Qed.

Lemma product_nonneg (ds : list Z) :
  Forall (fun d => (0 <= d)%Z) ds -> (0 <= product ds)%Z.
Proof. induction 1 as [|d ds Hd _ IH]; simpl; lia. Qed.

Lemma param_count_exact (init : TensorProto) :
  fits_int64 init -> param_count init = exact_param_count init.
Proof.
  intros [Hpos Hlt]. unfold param_count, exact_param_count.
  destruct (dims init) as [|d ds] eqn:E; [reflexivity|].
  rewrite np_prod_wrap. apply wrap64_small.
  pose proof (product_nonneg _ Hpos). lia.
Qed.

Lemma total_params_sum (g : GraphProto) :
  total_params g = sum_list (map param_count (initializer g)).
Proof.
  unfold total_params. rewrite fold_left_add, Z.add_0_l.
  induction (initializer g) as [|init inits IH]; [reflexivity|].
  cbn [List.filter map sum_list fold_right]. unfold param_count at 1.
  destruct (dims init) as [|d ds] eqn:E; cbn [length Nat.eqb negb].
  - rewrite Z.add_0_l. exact IH.
  - cbn [map sum_list fold_right]. rewrite E. f_equal. exact IH.
Qed.

(** C8. The parameter count is the sum, over the initializers, of what each
    one contributes: nothing when its dims are empty, and otherwise the
    product of its dims as [np.prod] computes it, in an int64; this is the
    exact product whenever the dims are non-negative and their product is
    below [2 ^ 63]. *)
Theorem total_params_sum_of_products (g : GraphProto) :
  total_params g = sum_list (map param_count (initializer g))
  /\ (forall name dtype,
        param_count {| tensor_name := name; dims := []; data_type := dtype |}
        = 0%Z)
  /\ (forall init,
        param_count init
        = match dims init with
          | [] => 0%Z
          | ds => wrap64 (product ds)
          end)
  /\ (Forall fits_int64 (initializer g) ->
      total_params g = sum_list (map exact_param_count (initializer g))).
Proof.
  split; [apply total_params_sum|]. split; [reflexivity|]. split.
  - intros init. unfold param_count.
    destruct (dims init); [reflexivity | apply np_prod_wrap].
  - intros H. rewrite total_params_sum. f_equal.
    induction H as [|init inits Hi _ IH]; simpl; [reflexivity|].
    now rewrite param_count_exact, IH.
Qed.

Lemma total_params_sum_of_products_witness :
  Forall fits_int64
    [ {| tensor_name := "w"; dims := [2; 3]%Z; data_type := 1 |};
      {| tensor_name := "s"; dims := []; data_type := 1 |};
      {| tensor_name := "b"; dims := [4]%Z; data_type := 7 |} ]
  /\ total_params
       (graph_of_initializers
          [ {| tensor_name := "w"; dims := [2; 3]%Z; data_type := 1 |};
            {| tensor_name := "s"; dims := []; data_type := 1 |};
            {| tensor_name := "b"; dims := [4]%Z; data_type := 7 |} ])
     = 10%Z.
Proof.
  assert (H : Forall fits_int64
                [ {| tensor_name := "w"; dims := [2; 3]%Z; data_type := 1 |};
                  {| tensor_name := "s"; dims := []; data_type := 1 |};
                  {| tensor_name := "b"; dims := [4]%Z; data_type := 7 |} ]).
  { repeat constructor; simpl; lia. }
  split; [exact H|].
  exact (proj2 (proj2 (proj2
           (total_params_sum_of_products
              (graph_of_initializers
                 [ {| tensor_name := "w"; dims := [2; 3]%Z; data_type := 1 |};
                   {| tensor_name := "s"; dims := []; data_type := 1 |};
                   {| tensor_name := "b"; dims := [4]%Z; data_type := 7 |} ]))))
         H).
Defined.

(* ================================================================= *)
(** ** Magnitude formatting *)

Local Open Scope Z_scope.

(** The rounded quotient is within one half of the exact one. *)
Lemma round_half_even_near (num den : Z) :
  0 < den ->
  - den <= 2 * (round_half_even num den * den - num) <= den.
Proof.
  intros Hden. unfold round_half_even.
  pose proof (Z.div_mod num den ltac:(lia)) as Hdm.
  pose proof (Z.mod_pos_bound num den Hden) as Hr.
  set (q := num / den) in *. set (r := num mod den) in *.
  destruct (2 * r <? den) eqn:E1; [lia|].
  destruct (den <? 2 * r) eqn:E2; [lia|].
  destruct (Z.even q); lia.
Qed.

Lemma quotient_log2_le (p q : Z) : quotient_log2 p q <= Z.log2 p - Z.log2 q.
Proof.
  unfold quotient_log2. destruct (scaled p q (Z.log2 p - Z.log2 q)) as [num den].
  destruct (den <=? num); lia.
Qed.

(** Dividing a count by one of the two units: the quotient is in range, and
    its mantissa is the rounded scaled quotient. *)
Lemma true_divide_unit (n q : Z) :
  q = 1000 \/ q = 1000000 ->
  q <= n < 2 ^ 1024 ->
  exists m e,
    true_divide n q = Some {| negative := false; mantissa := m; exponent := e |}
    /\ e <= Z.log2 n - Z.log2 q - 52
    /\ 0 <= m
    /\ (0 <= e -> - (q * 2 ^ e) <= 2 * (m * (q * 2 ^ e) - n) <= q * 2 ^ e)
    /\ (e < 0 -> - q <= 2 * (m * q - n * 2 ^ (- e)) <= q).
Proof.
  intros Hq [Hqn Hn].
  assert (Hq0 : 2 <= q) by lia.
  assert (Hlq : 9 <= Z.log2 q).
  { destruct Hq as [-> | ->]; vm_compute; discriminate. }
  assert (Hln : Z.log2 n < 1024) by (apply Z.log2_lt_pow2; lia).
  unfold true_divide.
  replace (q =? 0) with false by lia.
  replace (n <? 0) with false by lia.
  replace (q <? 0) with false by lia.
  rewrite !Z.abs_eq by lia.
  replace (n =? 0) with false by lia.
  set (e := Z.max (quotient_log2 n q - 52) (-1074)).
  pose proof (quotient_log2_le n q) as Hk.
  assert (He : e <= Z.log2 n - Z.log2 q - 52 \/ e = -1074) by lia.
  assert (He' : e <= Z.log2 n - Z.log2 q - 52).
  { destruct He as [He | He]; [assumption|].
    assert (Z.log2 q <= Z.log2 n) by (apply Z.log2_le_mono; lia). lia. }
  unfold scaled, too_large.
  destruct (0 <=? e) eqn:Ee.
  - apply Z.leb_le in Ee.
    set (P := 2 ^ e).
    assert (HP : 0 < P) by (apply Z.pow_pos_nonneg; lia).
    assert (HP' : P <= 2 ^ 962) by (apply Z.pow_le_mono_r; lia).
    pose proof (round_half_even_near n (q * P) ltac:(lia)) as Hm.
    set (m := round_half_even n (q * P)) in *.
    assert (Hm0 : 0 <= m).
    { destruct (Z.lt_ge_cases m 0) as [Hneg|]; [|assumption].
      assert (m * (q * P) <= - (q * P)) by nia. lia. }
    assert (Hfit : m * P < 2 ^ 1024).
    { destruct Hq as [-> | ->]; lia. }
    replace (2 ^ 1024 <=? m * P) with false by lia.
    exists m, e. repeat split; try assumption; try lia.
  - apply Z.leb_gt in Ee.
    set (E := 2 ^ (- e)).
    assert (HE : 0 < E) by (apply Z.pow_pos_nonneg; lia).
    pose proof (round_half_even_near (n * E) q ltac:(lia)) as Hm.
    set (m := round_half_even (n * E) q) in *.
    assert (HnE : n * E <= (2 ^ 1024 - 1) * E) by (apply Z.mul_le_mono_nonneg_r; lia).
    assert (HnE0 : 0 <= n * E) by nia.
    assert (Hm0 : 0 <= m).
    { destruct Hq as [-> | ->]; lia. }
    replace (2 ^ (1024 - e)) with (2 ^ 1024 * E)
      by (unfold E; rewrite <- Z.pow_add_r by lia; f_equal; lia).
    assert (Hfit : m < 2 ^ 1024 * E).
    { destruct Hq as [-> | ->]; lia. }
    replace (2 ^ 1024 * E <=? m) with false by lia.
    exists m, e. repeat split; try assumption; try lia.
Qed.

Lemma log2_below (n b : Z) : 0 < n < 2 ^ b -> 0 < b -> Z.log2 n <= b - 1.
Proof. intros [H0 Hn] Hb. apply Z.log2_lt_pow2 in Hn; lia. Qed.

(** The hundredths shown for a count of thousands or millions: the nearest
    to the exact quotient, when the quotient is small enough for binary64 to
    hold its third decimal. *)
Lemma hundredths_near (n q m e : Z) :
  q = 1000 \/ q = 1000000 ->
  q <= n < 2 ^ 53 ->
  e <= Z.log2 n - Z.log2 q - 52 ->
  (e < 0 -> - q <= 2 * (m * q - n * 2 ^ (- e)) <= q) ->
  let c := hundredths {| negative := false; mantissa := m; exponent := e |} in
  Z.abs (q / 100 * c - n) <= q / 200.
Proof.
  intros Hq [Hqn Hn] He Hm c. subst c. unfold hundredths. simpl.
  assert (Hln : Z.log2 n <= 52)
    by (pose proof (log2_below n 53 ltac:(lia) ltac:(lia)); lia).
  assert (Hlq : q = 1000 /\ Z.log2 q = 9 \/ q = 1000000 /\ Z.log2 q = 19).
  { destruct Hq as [-> | ->]; [left | right]; split; reflexivity. }
  assert (Hneg : e < 0) by lia.
  replace (0 <=? e) with false by lia.
  specialize (Hm Hneg).
  set (E := 2 ^ (- e)) in *.
  assert (HE : 0 < E) by (apply Z.pow_pos_nonneg; lia).
  pose proof (round_half_even_near (m * 100) E HE) as Hc.
  set (c := round_half_even (m * 100) E) in *.
  destruct Hlq as [[-> Hl] | [-> Hl]].
  - change (1000 / 100) with 10. change (1000 / 200) with 5.
    assert (HE9 : 2 ^ 9 <= E) by (apply Z.pow_le_mono_r; lia).
    assert (H1 : E * (10 * c - n) <= 5 * E + 500) by lia.
    assert (H2 : - (5 * E + 500) <= E * (10 * c - n)) by lia.
    apply Z.abs_le. split.
    + destruct (Z.lt_ge_cases (10 * c - n) (-5)) as [Hlt|]; [|lia].
      assert (E * (10 * c - n) <= E * (-6)) by (apply Z.mul_le_mono_nonneg_l; lia).
      lia.
    + destruct (Z.lt_ge_cases 5 (10 * c - n)) as [Hlt|]; [|lia].
      assert (E * 6 <= E * (10 * c - n)) by (apply Z.mul_le_mono_nonneg_l; lia).
      lia.
  - change (1000000 / 100) with 10000. change (1000000 / 200) with 5000.
    assert (HE19 : 2 ^ 19 <= E) by (apply Z.pow_le_mono_r; lia).
    assert (H1 : E * (10000 * c - n) <= 5000 * E + 500000) by lia.
    assert (H2 : - (5000 * E + 500000) <= E * (10000 * c - n)) by lia.
    apply Z.abs_le. split.
    + destruct (Z.lt_ge_cases (10000 * c - n) (-5000)) as [Hlt|]; [|lia].
      assert (E * (10000 * c - n) <= E * (-5001))
        by (apply Z.mul_le_mono_nonneg_l; lia).
      lia.
    + destruct (Z.lt_ge_cases 5000 (10000 * c - n)) as [Hlt|]; [|lia].
      assert (E * 5001 <= E * (10000 * c - n))
        by (apply Z.mul_le_mono_nonneg_l; lia).
      lia.
Qed.

Lemma hundredths_nonneg (m e : Z) :
  0 <= m ->
  0 <= hundredths {| negative := false; mantissa := m; exponent := e |}.
Proof.
  intros Hm. unfold hundredths. simpl. destruct (0 <=? e) eqn:Ee.
  - apply Z.leb_le in Ee.
    assert (0 < 2 ^ e) by (apply Z.pow_pos_nonneg; lia). nia.
  - apply Z.leb_gt in Ee.
    assert (HE : 0 < 2 ^ (- e)) by (apply Z.pow_pos_nonneg; lia).
    pose proof (round_half_even_near (m * 100) (2 ^ (- e)) HE) as Hc.
    set (E := 2 ^ (- e)) in *. set (c := round_half_even (m * 100) E) in *.
    destruct (Z.lt_ge_cases c 0) as [Hneg|]; [|assumption].
    assert (c * E <= - E) by nia. lia.
Qed.

Lemma digit_string (d : Z) :
  0 <= d < 10 -> exists a, str_of_Z d = String a "" /\ is_digit a = true.
Proof.
  intros H.
  assert (Hd : d = 0 \/ d = 1 \/ d = 2 \/ d = 3 \/ d = 4 \/ d = 5 \/ d = 6
               \/ d = 7 \/ d = 8 \/ d = 9) by lia.
  repeat (destruct Hd as [-> | Hd]; [eexists; split; reflexivity|]).
  subst d. eexists; split; reflexivity.
Qed.

(** Two decimals, always. *)
Lemma fixed2_two_decimals (c : Z) :
  exists d1 d2,
    fixed2 c = str_of_Z (c / 100) +:+ "." +:+ String d1 (String d2 "")
    /\ is_digit d1 = true /\ is_digit d2 = true.
Proof.
  unfold fixed2.
  destruct (digit_string ((c / 10) mod 10)) as [d1 [H1 Hd1]];
    [apply Z.mod_pos_bound; lia|].
  destruct (digit_string (c mod 10)) as [d2 [H2 Hd2]];
    [apply Z.mod_pos_bound; lia|].
  exists d1, d2. rewrite H1, H2. repeat split; assumption.
Qed.

Lemma format_params_unit (n q : Z) (suffix : string) :
  q = 1000 \/ q = 1000000 ->
  q <= n < 2 ^ 1024 ->
  exists c,
    match true_divide n q with
    | Some x => Some (format_2f x +:+ suffix)
    | None => None
    end = Some (fixed2 c +:+ suffix)
    /\ 0 <= c
    /\ (n < 2 ^ 53 -> Z.abs (q / 100 * c - n) <= q / 200).
Proof.
  intros Hq Hn.
  destruct (true_divide_unit n q Hq Hn) as (m & e & Hdiv & He & Hm0 & _ & Hm).
  rewrite Hdiv.
  exists (hundredths {| negative := false; mantissa := m; exponent := e |}).
  split; [reflexivity|]. split; [now apply hundredths_nonneg|].
  intros Hn53. apply hundredths_near; try assumption. lia.
Qed.

(** C9. A count below 1000 is printed as the plain integer; from 1000 to
    999999 it is printed in thousands with the suffix K, from 1000000 on in
    millions with the suffix M, in both cases with two decimals, the value
    shown being the nearest hundredth of the quotient (for counts below
    [2 ^ 53], where binary64 carries the quotient's third decimal). The
    division succeeds for every count below [2 ^ 1024]; a sum of int64
    products does not come near that. *)
Theorem format_params_rendering (n : Z) :
  (n < 1000 -> format_params n = Some (str_of_Z n))
  /\ (1000 <= n < 1000000 ->
      exists c, format_params n = Some (fixed2 c +:+ "K")
                /\ Z.abs (10 * c - n) <= 5)
  /\ (1000000 <= n < 2 ^ 1024 ->
      exists c, format_params n = Some (fixed2 c +:+ "M")
                /\ 0 <= c
                /\ (n < 2 ^ 53 -> Z.abs (10000 * c - n) <= 5000))
  /\ (forall c, exists d1 d2,
        fixed2 c = str_of_Z (c / 100) +:+ "." +:+ String d1 (String d2 "")
        /\ is_digit d1 = true /\ is_digit d2 = true)
  /\ format_params 999 = Some "999"
  /\ format_params 1000 = Some "1.00K"
  /\ format_params 999999 = Some "1000.00K"
  /\ format_params 1000000 = Some "1.00M".
Proof.
  split; [|split; [|split; [|split]]].
  - intros Hlt. unfold format_params.
    replace (1000000 <=? n) with false by lia.
    replace (1000 <=? n) with false by lia. reflexivity.
  - intros [Hge Hlt]. unfold format_params.
    replace (1000000 <=? n) with false by lia.
    replace (1000 <=? n) with true by lia.
    destruct (format_params_unit n 1000 "K" (or_introl eq_refl) ltac:(lia))
      as (c & Hc & _ & Hnear).
    exists c. split; [exact Hc|]. apply Hnear. lia.
  - intros [Hge Hlt]. unfold format_params.
    replace (1000000 <=? n) with true by lia.
    destruct (format_params_unit n 1000000 "M" (or_intror eq_refl) ltac:(lia))
      as (c & Hc & Hc0 & Hnear).
    exists c. split; [exact Hc|]. split; [exact Hc0|]. exact Hnear.
  - apply fixed2_two_decimals.
  - repeat split; vm_compute; reflexivity.
Qed.

Lemma format_params_rendering_witness :
  1000000 <= 25557032 < 2 ^ 1024
  /\ (exists c, format_params 25557032 = Some (fixed2 c +:+ "M")
                /\ 0 <= c
                /\ (25557032 < 2 ^ 53 -> Z.abs (10000 * c - 25557032) <= 5000))
  /\ 1000 <= 1234 < 1000000
  /\ (exists c, format_params 1234 = Some (fixed2 c +:+ "K")
                /\ Z.abs (10 * c - 1234) <= 5)
  /\ format_params 25557032 = Some "25.56M"
  /\ format_params 1234 = Some "1.23K".
Proof.
  assert (H : 1000000 <= 25557032 < 2 ^ 1024) by (split; [lia | reflexivity]).
  assert (H' : 1000 <= 1234 < 1000000) by lia.
  split; [exact H|].
  split; [exact (proj1 (proj2 (proj2 (format_params_rendering 25557032))) H)|].
  split; [exact H'|].
  split; [exact (proj1 (proj2 (format_params_rendering 1234)) H')|].
  split; vm_compute; reflexivity.
Defined.

Local Close Scope Z_scope.

(* ================================================================= *)
(** ** The order of strings *)

Lemma ascii_compare_lt_trans (x y z : ascii) :
  Ascii.compare x y = Lt -> Ascii.compare y z = Lt -> Ascii.compare x z = Lt.
Proof.
  unfold Ascii.compare. rewrite !N.compare_lt_iff. lia.
Qed.

Lemma compare_lt_trans (a : string) : forall b c,
  String.compare a b = Lt -> String.compare b c = Lt -> String.compare a c = Lt.
Proof.
  induction a as [|x a IH]; intros [|y b] [|z c]; simpl;
    try discriminate; try reflexivity.
  destruct (Ascii.compare x y) eqn:E1; try discriminate;
    destruct (Ascii.compare y z) eqn:E2; try discriminate.
  - apply Ascii.compare_eq_iff in E1, E2. subst y z.
    replace (Ascii.compare x x) with Eq; [apply IH|].
    symmetry. unfold Ascii.compare. apply N.compare_refl.
  - apply Ascii.compare_eq_iff in E1. subst y. now rewrite E2.
  - apply Ascii.compare_eq_iff in E2. subst z. now rewrite E1.
  - now rewrite (ascii_compare_lt_trans x y z E1 E2).
Qed.

Lemma ltb_compare (a b : string) :
  String.ltb a b = true <-> String.compare a b = Lt.
Proof.
  unfold String.ltb. destruct (String.compare a b); split; congruence.
Qed.

Lemma ltb_irrefl (a : string) : String.ltb a a = false.
Proof.
  destruct (String.ltb a a) eqn:E; [|reflexivity].
  apply ltb_compare in E. pose proof (String.compare_antisym a a) as H.
  rewrite E in H. discriminate.
Qed.

Lemma ltb_trans (a b c : string) :
  String.ltb a b = true -> String.ltb b c = true -> String.ltb a c = true.
Proof. rewrite !ltb_compare. apply compare_lt_trans. Qed.

Lemma ltb_asym (y x : string) : String.ltb y x = true -> String.ltb x y = false.
Proof.
  intros H. destruct (String.ltb x y) eqn:E; [|reflexivity].
  rewrite <- (ltb_irrefl x). symmetry. now apply (ltb_trans x y x).
Qed.

Lemma not_ltb_cases (a b : string) :
  String.ltb b a = false -> a = b \/ String.ltb a b = true.
Proof.
  intros H. unfold String.ltb in *.
  rewrite (String.compare_antisym a b).
  destruct (String.compare b a) eqn:E; try discriminate.
  - left. symmetry. now apply String.compare_eq_iff.
  - now right.
Qed.

Lemma ltb_precedes_trans (a b c : string) :
  may_precede String.ltb a b -> may_precede String.ltb b c ->
  may_precede String.ltb a c.
Proof.
  unfold may_precede. intros Hab Hbc.
  destruct (String.ltb c a) eqn:E; [|reflexivity]. exfalso.
  destruct (not_ltb_cases _ _ Hab) as [->|Hab']; [congruence|].
  destruct (not_ltb_cases _ _ Hbc) as [->|Hbc']; [congruence|].
  pose proof (ltb_trans _ _ _ E (ltb_trans _ _ _ Hab' Hbc')) as H.
  rewrite ltb_irrefl in H. discriminate.
Qed.

(** Sorted strings without repetition are strictly ascending. *)
Lemma sorted_strings_strict (ks : list string) :
  NoDup ks -> StronglySorted str_lt (sorted_strings ks).
Proof.
  intros Hnd.
  assert (Hs : StronglySorted (may_precede String.ltb) (sorted_strings ks))
    by (apply sort_stable_sorted; [apply ltb_asym | apply ltb_precedes_trans]).
  assert (Hnd' : NoDup (sorted_strings ks)).
  { assert (Hp : Permutation (sorted_strings ks) ks) by apply sort_stable_perm.
    now rewrite Hp. }
  induction Hs as [|a l Hl IH Ha]; constructor.
  - apply IH. now apply NoDup_cons in Hnd'.
  - apply NoDup_cons in Hnd' as [Hin _].
    rewrite List.Forall_forall in Ha |- *. intros b Hb.
    destruct (not_ltb_cases _ _ (Ha b Hb)) as [->|H]; [|exact H].
    exfalso. apply Hin. now apply list_elem_of_In.
Qed.

(* ================================================================= *)
(** ** The structure tree *)

Lemma op_groups_keys (nodes : list NodeProto) :
  dict_keys (op_groups nodes) = first_occurrences (map op_type nodes).
Proof.
  unfold op_groups, group_node.
  rewrite (fold_setitem_keys op_type
             (fun groups n =>
                match dict_get (op_type n) groups with
                | Some ns => ns
                | None => []
                end ++ [n])).
  simpl. apply filter_all. apply List.Forall_forall. now intros.
Qed.

Lemma fold_group_get (k : string) (nodes : list NodeProto) : forall d,
  dict_get k (fold_left group_node nodes d)
  = match nodes_of_type k nodes with
    | [] => dict_get k d
    | ns => Some (match dict_get k d with Some l => l | None => [] end ++ ns)
    end.
Proof.
  induction nodes as [|n nodes IH]; intros d; [reflexivity|].
  cbn [fold_left]. rewrite IH. unfold nodes_of_type. cbn [List.filter].
  unfold group_node at 1 2. rewrite !dict_get_setitem.
  destruct (String.eqb (op_type n) k) eqn:E.
  - apply String.eqb_eq in E. rewrite E.
    destruct (List.filter _ nodes); [reflexivity|].
    now rewrite <- app_assoc.
  - reflexivity.
Qed.

(** Each group holds the nodes of its operator type, in graph order. *)
Lemma op_groups_get (k : string) (nodes : list NodeProto) :
  match dict_get k (op_groups nodes) with Some ns => ns | None => [] end
  = nodes_of_type k nodes.
Proof.
  unfold op_groups. rewrite fold_group_get. simpl.
  now destruct (nodes_of_type k nodes).
Qed.

(** C7, as the code has it. The tree has the branches of the inputs, of the
    nodes, of the initializers and of the outputs, in this order, the branch
    of the initializers being there only when the graph has an initializer:
    four branches then, three otherwise. The nodes branch has one group for
    each operator type, the groups in strictly ascending order of operator
    type, and each group lists the nodes of its type in the order of
    [graph.node]; without nodes the branch is there and empty. Every branch
    has one leaf for each entity, in the original order. The function is
    total. *)
Theorem structure_tree_branches (g : GraphProto) :
  let ops := sorted_strings (first_occurrences (map op_type (node g))) in
  update_structure_tree g
  = [ TreeItem "[IN] 输入" None (map (tensor_item InputTensor) (input g));
      TreeItem "[OP] 节点" None
        (map (fun op => group_item op (nodes_of_type op (node g))) ops) ]
    ++ match initializer g with
       | [] => []
       | inits =>
           [TreeItem "[W] 初始值 (权重)" None (map initializer_item inits)]
       end
    ++ [ TreeItem "[OUT] 输出" None (map (tensor_item OutputTensor) (output g)) ]
  /\ StronglySorted str_lt ops
  /\ Permutation ops (first_occurrences (map op_type (node g)))
  /\ length (update_structure_tree g)
     = match initializer g with [] => 3%nat | _ => 4%nat end
  /\ (forall name ins outs inits,
        nth_error
          (update_structure_tree
             {| graph_name := name; node := []; input := ins; output := outs;
                initializer := inits |}) 1
        = Some (TreeItem "[OP] 节点" None [])).
Proof.
  intros ops. split; [|split; [|split; [|split]]].
  - unfold update_structure_tree. rewrite op_groups_keys. fold ops.
    do 4 f_equal. apply map_ext. intros op. now rewrite op_groups_get.
  - apply sorted_strings_strict, first_occurrences_NoDup.
  - apply sort_stable_perm.
  - unfold update_structure_tree. now destruct (initializer g).
  - reflexivity.
Qed.

(** C7 fails as stated. A graph without initializers has three top-level
    branches: the branch of the initializers is not there. *)
Lemma no_initializers_no_branch :
  initializer example_graph = []
  /\ map item_text (update_structure_tree example_graph)
     = ["[IN] 输入"; "[OP] 节点"; "[OUT] 输出"]
  /\ length (update_structure_tree example_graph) = 3%nat
  /\ length (update_structure_tree example_graph) <> 4%nat.
Proof. repeat split. discriminate. Qed.

(* ================================================================= *)
(** ** Further properties of import and export *)


Lemma expected_props_idem mode (d : pydict string) props :
  expected_props mode d (expected_props mode d props)
  = expected_props mode d props.
Proof.
  destruct mode; simpl; [|reflexivity].
  rewrite List.filter_app, filter_idem.
  rewrite (filter_none (untouched d) (map entry_of d)); [now rewrite app_nil_r|].
  eapply List.Forall_impl; [|apply entries_touched].
  intros p Hp. unfold untouched. now rewrite Hp.
Qed.

(** Importing the same metadata file a second time, into the model the
    first import wrote, changes nothing: the model written is the same, in
    merge mode as in replace mode. The first output must not be the metadata
    file itself, and the model it holds must be one the checker accepts. *)
Theorem import_twice_is_import_once {L : Onnx}
    (model_path metadata_file out1 out2 : string) (mode : Mode)
    (st : State) (doc : ModelProto) (content : string) :
  read_model model_path st = Some doc ->
  check_model doc = true ->
  read_text metadata_file st = Some content ->
  out1 <> metadata_file ->
  writable out1 st = true ->
  writable out2 st = true ->
  check_model
    (with_metadata_props doc
       (expected_props mode
          (parse_metadata (iter_lines (universal_newlines content)))
          (metadata_props doc))) = true ->
  exists rep1 st1 rep2 st2,
    import_metadata model_path metadata_file out1 mode st
    = (0%Z, Some rep1, st1)
    /\ import_metadata out1 metadata_file out2 mode st1
       = (0%Z, Some rep2, st2)
    /\ files st2 !! out2 = files st1 !! out1.
Proof.
  intros Hm Hc Ht Hne Hw1 Hw2 Hc'. eexists _, _, _, _.
  split; [apply (import_metadata_run _ _ _ _ _ doc content Hm Hc Ht Hw1)|].
  split.
  - eapply import_metadata_run.
    + apply read_model_saved.
    + exact Hc'.
    + rewrite read_text_with_file_ne by congruence. exact Ht.
    + exact Hw2.
  - unfold with_file. cbn [files]. rewrite !lookup_insert_eq. do 2 f_equal.
    cbn [metadata_props with_metadata_props].
    rewrite expected_props_idem. reflexivity.
Qed.

Lemma import_twice_is_import_once_witness :
  read_model (L := plain_onnx) "model.onnx" scenario_state = Some scenario_model
  /\ check_model (L := plain_onnx) scenario_model = true
  /\ read_text (L := plain_onnx) "meta.txt" scenario_state = Some scenario_text
  /\ "a.onnx" <> "meta.txt"
  /\ writable "a.onnx" scenario_state = true
  /\ writable "b.onnx" scenario_state = true
  /\ check_model (L := plain_onnx)
       (with_metadata_props scenario_model
          (expected_props Merge
             (parse_metadata (iter_lines (universal_newlines scenario_text)))
             (metadata_props scenario_model))) = true
  /\ exists rep1 st1 rep2 st2,
       import_metadata (L := plain_onnx)
         "model.onnx" "meta.txt" "a.onnx" Merge scenario_state
       = (0%Z, Some rep1, st1)
       /\ import_metadata (L := plain_onnx)
            "a.onnx" "meta.txt" "b.onnx" Merge st1
          = (0%Z, Some rep2, st2)
       /\ files st2 !! "b.onnx" = files st1 !! "a.onnx".
Proof.
  split; [reflexivity|]. split; [reflexivity|]. split; [reflexivity|].
  split; [discriminate|]. split; [reflexivity|]. split; [reflexivity|].
  split; [reflexivity|].
  apply (import_twice_is_import_once (L := plain_onnx)
           "model.onnx" "meta.txt" "a.onnx" "b.onnx"
           Merge scenario_state scenario_model scenario_text);
    reflexivity || discriminate.
Defined.

Lemma parse_without_records lines :
  records_of lines = [] -> parse_metadata lines = [].
Proof.
  intros H. unfold parse_metadata, read_lines.
  rewrite read_lines_dict, H. reflexivity.
Qed.

Lemma with_own_metadata_props doc :
  with_metadata_props doc (metadata_props doc) = doc.
Proof. now destruct doc. Qed.

(** A metadata file without a single valid record (only empty lines and
    lines without a tab) is not an error: replace mode then writes the model
    with no metadata at all, merge mode writes the model as it was. *)
Theorem import_without_records {L : Onnx}
    (model_path metadata_file output_path : string) (mode : Mode)
    (st : State) (doc : ModelProto) (content : string) :
  read_model model_path st = Some doc ->
  check_model doc = true ->
  read_text metadata_file st = Some content ->
  writable output_path st = true ->
  records_of (iter_lines (universal_newlines content)) = [] ->
  exists rep st',
    import_metadata model_path metadata_file output_path mode st
    = (0%Z, Some rep, st')
    /\ files st' !! output_path
       = Some (ModelFile (match mode with
                          | Merge => doc
                          | Replace => with_metadata_props doc []
                          end)).
Proof.
  intros Hm Hc Ht Hw Hr. eexists _, _.
  split; [apply (import_metadata_run _ _ _ _ _ doc content Hm Hc Ht Hw)|].
  unfold with_file. cbn [files]. rewrite lookup_insert_eq. do 2 f_equal.
  rewrite (parse_without_records _ Hr).
  destruct mode; simpl; [|reflexivity].
  rewrite app_nil_r, filter_all; [apply with_own_metadata_props|].
  apply List.Forall_forall. reflexivity.
Qed.

Lemma import_without_records_witness :
  let content := String LF ("no tab here" +:+ String LF "") in
  let st := {| files := {["model.onnx" := ModelFile scenario_model;
                          "meta.txt" := TextFile content]};
               unwritable := ∅;
               heap := ∅ |} in
  read_model (L := plain_onnx) "model.onnx" st = Some scenario_model
  /\ check_model (L := plain_onnx) scenario_model = true
  /\ read_text (L := plain_onnx) "meta.txt" st = Some content
  /\ writable "out.onnx" st = true
  /\ records_of (iter_lines (universal_newlines content)) = []
  /\ exists rep st',
       import_metadata (L := plain_onnx)
         "model.onnx" "meta.txt" "out.onnx" Replace st
       = (0%Z, Some rep, st')
       /\ files st' !! "out.onnx"
          = Some (ModelFile (with_metadata_props scenario_model [])).
Proof.
  intros content st.
  split; [reflexivity|]. split; [reflexivity|]. split; [reflexivity|].
  split; [reflexivity|]. split; [reflexivity|].
  apply (import_without_records (L := plain_onnx)
           "model.onnx" "meta.txt" "out.onnx" Replace st
           scenario_model content);
    reflexivity.
Defined.

(** No line of the metadata file is lost without notice: every line is
    empty, or gives a record, or is reported as skipped. *)
Theorem every_line_accounted_for (lines : list string) :
  length lines
  = (length (blank_lines lines) + length (records_of lines)
     + length (skipped (read_lines lines)))%nat.
Proof.
  unfold read_lines. rewrite read_lines_skipped. simpl.
  unfold blank_lines, records_of, malformed_of.
  induction lines as [|raw lines IH]; [reflexivity|].
  cbn [List.filter map flat_map length]. rewrite length_app, IH.
  unfold record_of. rewrite str_after_contains.
  destruct (is_empty (rstrip LF raw)); cbn [negb andb length]; [lia|].
  destruct (str_after TAB (rstrip LF raw)); cbn [negb andb length]; lia.
Qed.

(** The numbers of the merge report fit together: the entries updated and
    the entries retained are the entries the model had, and the entries
    imported and the entries retained are the entries it has afterwards. *)
Theorem merge_report_reconciles {L : Onnx}
    (model_path metadata_file output_path : string)
    (st : State) (doc : ModelProto) (content : string) :
  read_model model_path st = Some doc ->
  check_model doc = true ->
  read_text metadata_file st = Some content ->
  writable output_path st = true ->
  exists imported updated added retained st' doc',
    import_metadata model_path metadata_file output_path Merge st
    = (0%Z, Some (MergeReport imported updated added retained), st')
    /\ files st' !! output_path = Some (ModelFile doc')
    /\ (updated + retained = Z.of_nat (length (metadata_props doc)))%Z
    /\ (imported + retained = Z.of_nat (length (metadata_props doc')))%Z
    /\ imported
       = Z.of_nat (length (parse_metadata
                             (iter_lines (universal_newlines content))))
    /\ (0 <= updated)%Z /\ (0 <= retained)%Z.
Proof.
  intros Hm Hc Ht Hw. eexists _, _, _, _, _, _.
  split.
  - rewrite (import_metadata_run _ _ _ _ _ doc content Hm Hc Ht Hw).
    cbn [metadata_props with_metadata_props].
    rewrite merge_report_counts. reflexivity.
  - unfold with_file. cbn [files]. rewrite lookup_insert_eq.
    split; [reflexivity|].
    cbn [metadata_props with_metadata_props expected_props].
    set (d := parse_metadata (iter_lines (universal_newlines content))).
    pose proof (filter_length_split (fun p => dict_contains (key p) d)
                  (metadata_props doc)) as H.
    cbv beta in H. fold (untouched d) in H.
    rewrite length_app, length_map. repeat split; lia.
Qed.

Lemma merge_report_reconciles_witness :
  read_model (L := plain_onnx) "model.onnx" scenario_state = Some scenario_model
  /\ check_model (L := plain_onnx) scenario_model = true
  /\ read_text (L := plain_onnx) "meta.txt" scenario_state = Some scenario_text
  /\ writable "out.onnx" scenario_state = true
  /\ exists imported updated added retained st' doc',
       import_metadata (L := plain_onnx)
         "model.onnx" "meta.txt" "out.onnx" Merge scenario_state
       = (0%Z, Some (MergeReport imported updated added retained), st')
       /\ files st' !! "out.onnx" = Some (ModelFile doc')
       /\ (updated + retained = Z.of_nat (length (metadata_props scenario_model)))%Z
       /\ (imported + retained = Z.of_nat (length (metadata_props doc')))%Z
       /\ imported
          = Z.of_nat (length (parse_metadata
                                (iter_lines (universal_newlines scenario_text))))
       /\ (0 <= updated)%Z /\ (0 <= retained)%Z.
Proof.
  split; [reflexivity|]. split; [reflexivity|].
  split; [reflexivity|]. split; [reflexivity|].
  apply (merge_report_reconciles (L := plain_onnx)
           "model.onnx" "meta.txt" "out.onnx"
           scenario_state scenario_model scenario_text); reflexivity.
Defined.

(* ================================================================= *)
(** ** Line ends of the metadata file *)

Lemma universal_newlines_to_crlf s :
  str_contains CR s = false -> universal_newlines (to_crlf s) = s.
Proof.
  induction s as [|a s IH]; simpl; [reflexivity|].
  intros H. apply orb_false_iff in H as [Ha Hs].
  destruct (Ascii.eqb a LF) eqn:E.
  - apply Ascii.eqb_eq in E. subst a. simpl. now rewrite IH.
  - simpl. rewrite Ha. now rewrite IH.
Qed.

(** A metadata file saved with Windows line ends is read like the same file
    with plain line feeds: the same lines, hence the same records. *)
Theorem crlf_file_reads_like_lf_file (content : string) :
  str_contains CR content = false ->
  iter_lines (universal_newlines (to_crlf content))
  = iter_lines (universal_newlines content)
  /\ parse_metadata (iter_lines (universal_newlines (to_crlf content)))
     = parse_metadata (iter_lines (universal_newlines content)).
Proof.
  intros H.
  rewrite universal_newlines_to_crlf, universal_newlines_id by assumption.
  split; reflexivity.
Qed.

Lemma crlf_file_reads_like_lf_file_witness :
  str_contains CR scenario_text = false
  /\ to_crlf scenario_text
     = "y" +:+ String TAB "9" +:+ String CR (String LF
         ("z" +:+ String TAB "5" +:+ String CR (String LF "")))
  /\ parse_metadata (iter_lines (universal_newlines (to_crlf scenario_text)))
     = parse_metadata (iter_lines (universal_newlines scenario_text)).
Proof.
  split; [reflexivity|]. split; [reflexivity|].
  exact (proj2 (crlf_file_reads_like_lf_file scenario_text eq_refl)).
Defined.

Lemma rstrip_cons c a s s' :
  rstrip c s = rstrip c s' -> rstrip c (String a s) = rstrip c (String a s').
Proof. intros H. simpl. now rewrite H. Qed.

(** The stripped lines of a text with one more line feed at its end are
    those of the text, or those and one empty line. *)
Lemma stripped_lines_with_line_feed s :
  exists extra,
    (extra = [] \/ extra = [EmptyString])
    /\ map (rstrip LF) (iter_lines (s +:+ String LF ""))
       = map (rstrip LF) (iter_lines s) ++ extra.
Proof.
  induction s as [|a s IH].
  - exists [EmptyString]. split; [now right | reflexivity].
  - destruct IH as (extra & Hextra & IH). simpl.
    destruct (Ascii.eqb a LF) eqn:E.
    + exists extra. split; [assumption|]. simpl. now rewrite IH.
    + destruct s as [|b s].
      * exists []. split; [now left|]. simpl. rewrite E. reflexivity.
      * destruct (iter_lines (String b s)) as [|l ls] eqn:El.
        { simpl in El. destruct (Ascii.eqb b LF); [discriminate|].
          destruct (iter_lines s); discriminate. }
        destruct (iter_lines (String b s +:+ String LF "")) as [|l' ls'] eqn:El'.
        { simpl in IH. discriminate. }
        exists extra. split; [assumption|].
        cbn [map] in IH |- *. cbn [app] in IH |- *.
        injection IH as Hl Hls. rewrite Hls. f_equal.
        now apply rstrip_cons.
Qed.

Lemma read_line_stripped st raw raw' :
  rstrip LF raw = rstrip LF raw' -> read_line st raw = read_line st raw'.
Proof. intros H. unfold read_line. now rewrite H. Qed.

Lemma read_lines_stripped lines : forall lines' st,
  map (rstrip LF) lines = map (rstrip LF) lines' ->
  fold_left read_line lines st = fold_left read_line lines' st.
Proof.
  induction lines as [|raw lines IH]; intros [|raw' lines'] st H;
    try discriminate; [reflexivity|].
  simpl in H. injection H as Hr Hl. simpl.
  rewrite (read_line_stripped st raw raw' Hr). now apply IH.
Qed.

Lemma read_lines_final_line_feed t :
  read_lines (iter_lines (t +:+ String LF "")) = read_lines (iter_lines t).
Proof.
  destruct (stripped_lines_with_line_feed t) as (extra & Hextra & H).
  unfold read_lines.
  destruct Hextra as [-> | ->].
  - rewrite app_nil_r in H. now apply read_lines_stripped.
  - rewrite (read_lines_stripped _ (iter_lines t ++ [EmptyString]));
      [|now rewrite map_app].
    rewrite fold_left_app. reflexivity.
Qed.

Lemma universal_newlines_final_line_feed s :
  universal_newlines (s +:+ String LF "") = universal_newlines s +:+ String LF ""
  \/ universal_newlines (s +:+ String LF "") = universal_newlines s.
Proof.
  induction s as [|a s IH]; [now left|].
  cbn [String.append universal_newlines].
  destruct (Ascii.eqb a CR) eqn:E.
  - destruct s as [|b s].
    + right. reflexivity.
    + cbn [String.append] in IH |- *.
      destruct (Ascii.eqb b LF) eqn:Eb.
      * assert (H : universal_newlines (s +:+ String LF "")
                    = universal_newlines s +:+ String LF ""
                    \/ universal_newlines (s +:+ String LF "")
                       = universal_newlines s).
        { cbn [universal_newlines] in IH.
          apply Ascii.eqb_eq in Eb. subst b.
          change (Ascii.eqb LF CR) with false in IH.
          destruct IH as [IH|IH]; [left | right];
            simpl in IH; now injection IH. }
        destruct H as [H|H]; [left | right]; rewrite H; reflexivity.
      * destruct IH as [IH|IH]; [left | right]; rewrite IH; reflexivity.
  - destruct IH as [IH|IH]; [left | right]; rewrite IH; reflexivity.
Qed.

(** The last line of the metadata file needs no line feed, and one more
    line feed at the end of the file changes nothing: the records read and
    the lines skipped are the same. *)
Theorem final_line_feed_is_optional (content : string) :
  read_lines (iter_lines (universal_newlines (content +:+ String LF "")))
  = read_lines (iter_lines (universal_newlines content)).
Proof.
  destruct (universal_newlines_final_line_feed content) as [H|H]; rewrite H.
  - apply read_lines_final_line_feed.
  - reflexivity.
Qed.



(* ================================================================= *)
(** ** Grouping by key loses nothing *)

Lemma flat_map_filter_nil {A} (kf : A -> string) ks :
  flat_map (fun k => List.filter (fun x : A => String.eqb (kf x) k) []) ks = [].
Proof. induction ks as [|k ks IH]; simpl; [reflexivity | assumption]. Qed.

Lemma flat_map_filter_cons {A} (kf : A -> string) (x : A) r ks :
  NoDup ks ->
  Permutation
    (flat_map (fun k => List.filter (fun y => String.eqb (kf y) k) (x :: r)) ks)
    (if dict_contains (kf x) (map (fun k => (k, tt)) ks)
     then x :: flat_map (fun k => List.filter (fun y => String.eqb (kf y) k) r) ks
     else flat_map (fun k => List.filter (fun y => String.eqb (kf y) k) r) ks).
Proof.
  unfold dict_contains.
  induction 1 as [|k ks Hk Hnd IH]; [reflexivity|].
  cbn [flat_map List.filter map existsb fst].
  rewrite (String.eqb_sym k (kf x)).
  destruct (String.eqb (kf x) k) eqn:E; cbn [orb].
  - apply String.eqb_eq in E. subst k.
    assert (Hno : existsb (fun e : string * unit => String.eqb (fst e) (kf x))
                    (map (fun k => (k, tt)) ks) = false).
    { destruct (existsb _ _) eqn:Ex; [|reflexivity].
      apply existsb_exists in Ex as [[k' u] [Hin Hk']].
      apply in_map_iff in Hin as [k'' [Heq Hin]]. injection Heq as -> _.
      simpl in Hk'. apply String.eqb_eq in Hk'. subst k'.
      exfalso. apply Hk. now apply list_elem_of_In. }
    rewrite Hno in IH. cbn [app]. constructor.
    now apply Permutation_app_head.
  - destruct (existsb _ _).
    + rewrite IH. symmetry. apply Permutation_middle.
    + now apply Permutation_app_head.
Qed.

(** The groups of a list under distinct keys that cover it make up the
    list: every element is in exactly one group. *)
Lemma groups_make_up_the_list {A} (kf : A -> string) (l : list A) ks :
  NoDup ks ->
  (forall x, In x l -> In (kf x) ks) ->
  Permutation
    (flat_map (fun k => List.filter (fun y => String.eqb (kf y) k) l) ks) l.
Proof.
  intros Hnd. induction l as [|x r IH]; intros Hcover.
  - now rewrite flat_map_filter_nil.
  - rewrite (flat_map_filter_cons kf x r ks Hnd).
    assert (Hin : dict_contains (kf x) (map (fun k => (k, tt)) ks) = true).
    { apply dict_contains_In. unfold dict_keys. rewrite map_map, map_id.
      apply Hcover. now left. }
    rewrite Hin. constructor. apply IH.
    intros y Hy. apply Hcover. now right.
Qed.

Lemma first_occurrences_complete k ks : In k ks -> In k (first_occurrences ks).
Proof.
  induction ks as [|a ks IH]; simpl; [tauto|].
  intros [H|H]; [now left|].
  destruct (String.eqb k a) eqn:E.
  - left. symmetry. now apply String.eqb_eq.
  - right. apply List.filter_In. split; [now apply IH | now rewrite E].
Qed.

Lemma sum_list_perm (l l' : list Z) :
  Permutation l l' -> sum_list l = sum_list l'.
Proof. induction 1; simpl; lia. Qed.



Lemma histogram_perm (g : GraphProto) :
  Permutation (op_histogram g)
    (map (fun k => (k, occurrences k (map op_type (node g))))
         (first_occurrences (map op_type (node g)))).
Proof.
  unfold op_histogram, most_common. rewrite <- Counter_items.
  apply sorted_by_key_perm.
Qed.



(** The number of operator types that [show_metadata] prints (the size of
    the set of operator types) is the number of rows of the operator table,
    and of the rows that the viewer lists. *)
Theorem op_types_is_number_of_rows (g : GraphProto) :
  op_types (summary g) = length (op_histogram g)
  /\ op_types (summary g) = length (op_statistics g).
Proof.
  assert (H : op_types (summary g) = length (op_histogram g)).
  { rewrite (Permutation_length (histogram_perm g)), length_map.
    cbn [op_types summary].
    rewrite <- (size_list_to_set (C := gset string)
                  (first_occurrences (map op_type (node g))))
      by apply first_occurrences_NoDup.
    f_equal. apply set_eq. intros k. rewrite !elem_of_list_to_set.
    rewrite !list_elem_of_In. split.
    - apply first_occurrences_complete.
    - apply first_occurrences_In. }
  split; [exact H|].
  unfold op_statistics. rewrite sorted_negated_key. exact H.
Qed.

Lemma group_leaves (nodes : list NodeProto) (ks : list string) :
  flat_map item_children
    (map (fun op =>
            group_item op
              (match dict_get op (op_groups nodes) with
               | Some ns => ns
               | None => []
               end)) ks)
  = map node_item (flat_map (fun op => nodes_of_type op nodes) ks).
Proof.
  induction ks as [|k ks IH]; [reflexivity|].
  cbn [map flat_map]. rewrite map_app, IH, op_groups_get. reflexivity.
Qed.

(** Every node of the graph is shown exactly once in the nodes branch of the
    structure tree: the leaves under the groups are the leaves of the nodes,
    rearranged. *)
Theorem tree_shows_every_node_once (g : GraphProto) :
  exists nodes_item,
    nth_error (update_structure_tree g) 1 = Some nodes_item
    /\ Permutation (flat_map item_children (item_children nodes_item))
                   (map node_item (node g)).
Proof.
  eexists. split; [reflexivity|].
  cbn [item_children]. rewrite op_groups_keys, group_leaves.
  assert (Hks : Permutation
                  (sorted_strings (first_occurrences (map op_type (node g))))
                  (first_occurrences (map op_type (node g))))
    by apply sort_stable_perm.
  apply Permutation_map.
  apply (groups_make_up_the_list op_type (node g)).
  - rewrite Hks. apply first_occurrences_NoDup.
  - intros n Hn. rewrite Hks. apply first_occurrences_complete.
    now apply in_map.
Qed.

(* ================================================================= *)
(** ** Texts shown for values, dimensions and data types *)

(** The value shown in the summary is never longer than 50 characters, and
    its first 47 characters are always those of the value. *)
Theorem display_value_is_bounded {A} (dot : A) (value : list A) :
  length (display_value dot value) = Nat.min (length value) 50
  /\ firstn 47 (display_value dot value) = firstn 47 value.
Proof.
  unfold display_value. destruct (50 <? length value)%nat eqn:E.
  - apply Nat.ltb_lt in E. split.
    + rewrite length_app, length_firstn. cbn [length]. lia.
    + rewrite firstn_app, firstn_firstn, length_firstn.
      replace (47 - Nat.min 47 (length value))%nat with 0%nat by lia.
      cbn [firstn]. rewrite app_nil_r. reflexivity.
  - apply Nat.ltb_ge in E. split; [lia | reflexivity].
Qed.

(** A dimension is shown the same way everywhere: the details view of the
    viewer shows the text that the shape shows, and the pretty printer
    shows that text too, with markup around it unless it is a size. *)
Theorem dimension_texts_agree (d : Dimension) :
  dim_detail d = dim_text d
  /\ rich_dim_text d
     = if (0 <? dim_value d)%Z then dim_text d
       else "[dim]" +:+ dim_text d +:+ "[/dim]".
Proof.
  unfold dim_detail, dim_text, rich_dim_text.
  destruct (0 <? dim_value d)%Z; [split; reflexivity|].
  destruct (is_empty (dim_param d)); split; reflexivity.
Qed.

Lemma to_int_not_nil (z : Z) :
  Z.to_int z <> Decimal.Pos Decimal.Nil /\ Z.to_int z <> Decimal.Neg Decimal.Nil.
Proof.
  destruct z as [|p|p]; simpl; split; try discriminate;
    intros H; injection H as H; now apply Unsigned.to_uint_nonnil in H.
Qed.

Lemma str_of_Z_inj (a b : Z) : str_of_Z a = str_of_Z b -> a = b.
Proof.
  unfold str_of_Z. intros H.
  apply (f_equal NilZero.int_of_string) in H.
  destruct (to_int_not_nil a) as [Ha1 Ha2].
  destruct (to_int_not_nil b) as [Hb1 Hb2].
  rewrite !NilZero.isi in H by assumption.
  injection H as H. now apply to_int_inj.
Qed.

Lemma length_append (a b : string) :
  String.length (a +:+ b) = (String.length a + String.length b)%nat.
Proof. induction a as [|x a IH]; simpl; [reflexivity | now rewrite IH]. Qed.

Lemma append_inj_l (t a : string) : forall b, a +:+ t = b +:+ t -> a = b.
Proof.
  induction a as [|x a IH]; intros [|y b] H; simpl in H.
  - reflexivity.
  - apply (f_equal String.length) in H. simpl in H.
    rewrite length_append in H. lia.
  - apply (f_equal String.length) in H. simpl in H.
    rewrite length_append in H. lia.
  - injection H as -> H. f_equal. now apply IH.
Qed.

Lemma known_dtype (c : Z) :
  (0 <= c <= 16)%Z ->
  c = 0%Z \/ c = 1%Z \/ c = 2%Z \/ c = 3%Z \/ c = 4%Z \/ c = 5%Z \/ c = 6%Z
  \/ c = 7%Z \/ c = 8%Z \/ c = 9%Z \/ c = 10%Z \/ c = 11%Z \/ c = 12%Z
  \/ c = 13%Z \/ c = 14%Z \/ c = 15%Z \/ c = 16%Z.
Proof. lia. Qed.

Lemma unknown_dtype (c : Z) :
  ~ (0 <= c <= 16)%Z ->
  get_dtype_name c = "UNKNOWN(" +:+ str_of_Z c +:+ ")".
Proof.
  intros H. unfold get_dtype_name, dtype_names, table_get.
  repeat match goal with
         | |- context [(?k =? c)%Z] =>
             replace (k =? c)%Z with false by lia
         end.
  reflexivity.
Qed.

Ltac each_known_dtype H :=
  apply known_dtype in H;
  repeat (destruct H as [-> | H]); [..| subst].

Lemma get_dtype_name_inj (c c' : Z) :
  get_dtype_name c = get_dtype_name c' -> c = c'.
Proof.
  intros H.
  destruct (Z_le_dec 0 c) as [H0|H0], (Z_le_dec c 16) as [H1|H1];
    [| rewrite (unknown_dtype c) in H by lia ..];
    (destruct (Z_le_dec 0 c') as [H0'|H0'], (Z_le_dec c' 16) as [H1'|H1'];
     [| rewrite (unknown_dtype c') in H by lia ..]).
  all: try (assert (Hc : (0 <= c <= 16)%Z) by lia; each_known_dtype Hc).
  all: try (assert (Hc' : (0 <= c' <= 16)%Z) by lia; each_known_dtype Hc').
  all: try reflexivity.
  all: try (vm_compute in H; discriminate H).
  all: try (cbn in H; discriminate H).
  all: apply str_of_Z_inj;
    apply (append_inj_l ")");
    cbn in H; repeat (injection H as H); exact H.
Qed.

(** No two type codes are shown under the same name: the seventeen codes of
    the table have seventeen different names, and any other code is shown
    as UNKNOWN with the code itself. *)
Theorem dtype_names_do_not_collide (c c' : Z) :
  c <> c' ->
  get_dtype_name c <> get_dtype_name c'
  /\ ((c < 0 \/ 16 < c)%Z ->
      get_dtype_name c = "UNKNOWN(" +:+ str_of_Z c +:+ ")").
Proof.
  intros Hne. split.
  - intros H. apply Hne. now apply get_dtype_name_inj.
  - intros H. apply unknown_dtype. lia.
Qed.

Lemma dtype_names_do_not_collide_witness :
  (-1 <> 17)%Z
  /\ get_dtype_name (-1) <> get_dtype_name 17
  /\ get_dtype_name (-1) = "UNKNOWN(-1)".
Proof.
  assert (H : (-1 <> 17)%Z) by lia.
  split; [exact H|].
  destruct (dtype_names_do_not_collide (-1) 17 H) as [H1 H2].
  split; [exact H1|]. apply H2. lia.
Defined.

(* ================================================================= *)
(** ** The table of initializers *)

Local Open Scope Z_scope.

Lemma tenths_near (n q m e : Z) :
  q = 1000 \/ q = 1000000 ->
  q <= n < 2 ^ 53 ->
  e <= Z.log2 n - Z.log2 q - 52 ->
  (e < 0 -> - q <= 2 * (m * q - n * 2 ^ (- e)) <= q) ->
  let c := tenths {| negative := false; mantissa := m; exponent := e |} in
  Z.abs (q / 10 * c - n) <= q / 20.
Proof.
  intros Hq [Hqn Hn] He Hm c. subst c. unfold tenths. simpl.
  assert (Hln : Z.log2 n <= 52)
    by (pose proof (log2_below n 53 ltac:(lia) ltac:(lia)); lia).
  assert (Hlq : q = 1000 /\ Z.log2 q = 9 \/ q = 1000000 /\ Z.log2 q = 19).
  { destruct Hq as [-> | ->]; [left | right]; split; reflexivity. }
  assert (Hneg : e < 0) by lia.
  replace (0 <=? e) with false by lia.
  specialize (Hm Hneg).
  set (E := 2 ^ (- e)) in *.
  assert (HE : 0 < E) by (apply Z.pow_pos_nonneg; lia).
  pose proof (round_half_even_near (m * 10) E HE) as Hc.
  set (c := round_half_even (m * 10) E) in *.
  destruct Hlq as [[-> Hl] | [-> Hl]].
  - change (1000 / 10) with 100. change (1000 / 20) with 50.
    assert (HE9 : 2 ^ 9 <= E) by (apply Z.pow_le_mono_r; lia).
    assert (H1 : E * (100 * c - n) <= 50 * E + 500) by lia.
    assert (H2 : - (50 * E + 500) <= E * (100 * c - n)) by lia.
    apply Z.abs_le. split.
    + destruct (Z.lt_ge_cases (100 * c - n) (-50)) as [Hlt|]; [|lia].
      assert (E * (100 * c - n) <= E * (-51))
        by (apply Z.mul_le_mono_nonneg_l; lia).
      lia.
    + destruct (Z.lt_ge_cases 50 (100 * c - n)) as [Hlt|]; [|lia].
      assert (E * 51 <= E * (100 * c - n))
        by (apply Z.mul_le_mono_nonneg_l; lia).
      lia.
  - change (1000000 / 10) with 100000. change (1000000 / 20) with 50000.
    assert (HE19 : 2 ^ 19 <= E) by (apply Z.pow_le_mono_r; lia).
    assert (H1 : E * (100000 * c - n) <= 50000 * E + 500000) by lia.
    assert (H2 : - (50000 * E + 500000) <= E * (100000 * c - n)) by lia.
    apply Z.abs_le. split.
    + destruct (Z.lt_ge_cases (100000 * c - n) (-50000)) as [Hlt|]; [|lia].
      assert (E * (100000 * c - n) <= E * (-50001))
        by (apply Z.mul_le_mono_nonneg_l; lia).
      lia.
    + destruct (Z.lt_ge_cases 50000 (100000 * c - n)) as [Hlt|]; [|lia].
      assert (E * 50001 <= E * (100000 * c - n))
        by (apply Z.mul_le_mono_nonneg_l; lia).
      lia.
Qed.

Lemma format_elements_unit (n q : Z) (suffix : string) :
  q = 1000 \/ q = 1000000 ->
  q <= n < 2 ^ 1024 ->
  exists c,
    match true_divide n q with
    | Some x => Some (format_1f x +:+ suffix)
    | None => None
    end = Some (fixed1 c +:+ suffix)
    /\ (n < 2 ^ 53 -> Z.abs (q / 10 * c - n) <= q / 20).
Proof.
  intros Hq Hn.
  destruct (true_divide_unit n q Hq Hn) as (m & e & Hdiv & He & Hm0 & _ & Hm).
  rewrite Hdiv.
  exists (tenths {| negative := false; mantissa := m; exponent := e |}).
  split; [reflexivity|].
  intros Hn53. apply tenths_near; try assumption. lia.
Qed.

(** The element count of a tensor is printed with another rule than the
    parameter count: one decimal. Below 1000 it is the plain integer; from
    1000 on it is shown in thousands with K and from 1000000 on in millions
    with M, the value shown being the nearest tenth of the quotient. *)
Theorem format_elements_rendering (n : Z) :
  (n < 1000 -> format_elements n = Some (str_of_Z n))
  /\ (1000 <= n < 1000000 ->
      exists c, format_elements n = Some (fixed1 c +:+ "K")
                /\ Z.abs (100 * c - n) <= 50)
  /\ (1000000 <= n < 2 ^ 53 ->
      exists c, format_elements n = Some (fixed1 c +:+ "M")
                /\ Z.abs (100000 * c - n) <= 50000).
Proof.
  split; [|split].
  - intros Hlt. unfold format_elements.
    replace (1000000 <=? n) with false by lia.
    replace (1000 <=? n) with false by lia. reflexivity.
  - intros [Hge Hlt]. unfold format_elements.
    replace (1000000 <=? n) with false by lia.
    replace (1000 <=? n) with true by lia.
    destruct (format_elements_unit n 1000 "K" (or_introl eq_refl) ltac:(lia))
      as (c & Hc & Hnear).
    exists c. split; [exact Hc|]. apply Hnear. lia.
  - intros [Hge Hlt]. unfold format_elements.
    replace (1000000 <=? n) with true by lia.
    assert (Hn : 1000000 <= n < 2 ^ 1024) by lia.
    destruct (format_elements_unit n 1000000 "M" (or_intror eq_refl) Hn)
      as (c & Hc & Hnear).
    exists c. split; [exact Hc|]. apply Hnear. lia.
Qed.

Lemma format_elements_rendering_witness :
  1000 <= 1250 < 1000000
  /\ (exists c, format_elements 1250 = Some (fixed1 c +:+ "K")
                /\ Z.abs (100 * c - 1250) <= 50)
  /\ format_elements 1250 = Some "1.2K"
  /\ format_params 1250 = Some "1.25K".
Proof.
  assert (H : 1000 <= 1250 < 1000000) by lia.
  split; [exact H|].
  split; [exact (proj1 (proj2 (format_elements_rendering 1250)) H)|].
  split; vm_compute; reflexivity.
Defined.





Local Close Scope Z_scope.


(* ================================================================= *)
(** ** The operator table *)

Local Open Scope Z_scope.




Local Close Scope Z_scope.


(* ================================================================= *)
(** ** More on export, import and the parameter count *)

(** Exporting the metadata of a model to another file and importing the
    exported file back into the same model in merge mode gives the model as
    it was, when the entries fit the line format (the keys are distinct, the
    checker having accepted the model): every entry is removed and written
    again in its place. *)
Theorem export_then_merge_is_identity {L : Onnx} (st : State)
    (model_path txt out : string) (doc : ModelProto) :
  read_model model_path st = Some doc ->
  check_model doc = true ->
  txt <> model_path ->
  writable txt st = true ->
  writable out st = true ->
  Forall (fun p => exportable p = true) (metadata_props doc) ->
  exists st1 rep st2,
    export_metadata model_path txt st = (0%Z, st1)
    /\ import_metadata model_path txt out Merge st1 = (0%Z, Some rep, st2)
    /\ files st2 !! out = Some (ModelFile doc).
Proof.
  intros Hm Hc Hne Hw Hw' Hex. eexists _, _, _.
  split; [apply (export_metadata_run _ _ _ doc Hm Hc Hw)|].
  split.
  - apply (import_metadata_run _ _ _ _ _ doc (export_text (metadata_props doc))).
    + rewrite read_model_with_file_ne by congruence. exact Hm.
    + exact Hc.
    + apply read_text_written.
    + exact Hw'.
  - unfold with_file. cbn [files]. rewrite lookup_insert_eq. do 2 f_equal.
    cbn [expected_props].
    set (d := parse_metadata
                (iter_lines (universal_newlines (export_text (metadata_props doc))))).
    assert (Hd : map entry_of d = metadata_props doc)
      by (apply parse_exported; [now apply check_model_keys | assumption]).
    rewrite filter_none, Hd; [apply with_own_metadata_props|].
    rewrite <- Hd.
    eapply List.Forall_impl; [|apply entries_touched].
    intros p Hp. unfold untouched. now rewrite Hp.
Qed.

Lemma export_then_merge_is_identity_witness :
  let props := [MkProp "a" "1"; MkProp "b" ("x" +:+ String TAB "y")] in
  read_model (L := plain_onnx) "source.onnx" (roundtrip_state props)
  = Some (blank_model props)
  /\ check_model (L := plain_onnx) (blank_model props) = true
  /\ "meta.txt" <> "source.onnx"
  /\ writable "meta.txt" (roundtrip_state props) = true
  /\ writable "out.onnx" (roundtrip_state props) = true
  /\ Forall (fun p => exportable p = true) props
  /\ exists st1 rep st2,
       export_metadata (L := plain_onnx)
         "source.onnx" "meta.txt" (roundtrip_state props)
       = (0%Z, st1)
       /\ import_metadata (L := plain_onnx)
            "source.onnx" "meta.txt" "out.onnx" Merge st1
          = (0%Z, Some rep, st2)
       /\ files st2 !! "out.onnx" = Some (ModelFile (blank_model props)).
Proof.
  intros props.
  assert (H1 : read_model (L := plain_onnx) "source.onnx" (roundtrip_state props)
               = Some (blank_model props)) by reflexivity.
  assert (H2 : check_model (L := plain_onnx) (blank_model props) = true)
    by reflexivity.
  assert (H3 : "meta.txt" <> "source.onnx") by discriminate.
  assert (H4 : writable "meta.txt" (roundtrip_state props) = true)
    by reflexivity.
  assert (H5 : writable "out.onnx" (roundtrip_state props) = true)
    by reflexivity.
  assert (H6 : Forall (fun p => exportable p = true) props).
  { repeat constructor. }
  repeat (split; [assumption|]).
  exact (export_then_merge_is_identity (L := plain_onnx) (roundtrip_state props)
           "source.onnx" "meta.txt" "out.onnx" (blank_model props)
           H1 H2 H3 H4 H5 H6).
Defined.

(** The parameter count does not depend on the order of the initializers. *)
Theorem total_params_order_independent (g g' : GraphProto) :
  Permutation (initializer g) (initializer g') ->
  total_params g = total_params g'.
Proof.
  intros H. rewrite !total_params_sum.
  apply sum_list_perm. now apply Permutation_map.
Qed.

Lemma total_params_order_independent_witness :
  let w := {| tensor_name := "w"; dims := [2; 3]%Z; data_type := 1 |} in
  let b := {| tensor_name := "b"; dims := [4]%Z; data_type := 1 |} in
  Permutation (initializer (graph_of_initializers [w; b]))
              (initializer (graph_of_initializers [b; w]))
  /\ total_params (graph_of_initializers [w; b])
     = total_params (graph_of_initializers [b; w]).
Proof.
  intros w b.
  assert (H : Permutation (initializer (graph_of_initializers [w; b]))
                          (initializer (graph_of_initializers [b; w])))
    by apply perm_swap.
  split; [exact H|].
  exact (total_params_order_independent _ _ H).
Defined.
